(** * TFRecord converter: dataset discovery, splitting and sharding

    A shallow embedding of [functions/tfrecord-converter/main.py]: the
    layout resolver ([find_image_folder]), the class indexer and sample
    collection ([collect_images]), the train/validation split, the shard
    writer ([write_shards]) and the manifest assembled by
    [convert_to_tfrecord].

    Modelling conventions.
    - Python [str] and [bytes] are [string] (a sequence of 8-bit characters);
      [str.lower] is the ASCII lower-casing.
    - The file system is an interface of the [os] calls the program makes
      ([os.path.exists], [os.path.isdir], [os.listdir], [open(..).read()],
      [Image.open(..).size]); [os.listdir] returns its entries in the order
      of the list.
    - A Python exception is the [Raised] outcome of the [result] monad.
    - JSON numbers ([valSplit], [shardSizeMB]) are exact rationals.
    - Library code ([random.shuffle]'s generator, the protobuf serializer,
      the TFRecord framing, MD5) enters as parameters. *)

From Stdlib Require Import ZArith QArith Qround Lqa Ascii String DecimalString DecimalNat Lia.
From stdpp Require Import base list strings gmap sorting.

Close Scope Q_scope.
Local Open Scope Z_scope.
Local Open Scope nat_scope.

(** ** Exceptions *)

Inductive exn : Type :=
  | OSError      (* os.listdir / open failure *)
  | TypeError    (* subscripting None *)
  | KeyError     (* missing dict key *)
  | IndexError.  (* list index out of range *)

Inductive result (A : Type) : Type :=
  | Done (a : A)
  | Raised (e : exn).
Arguments Done {A} a.
Arguments Raised {A} e.

Definition rbind {A B} (m : result A) (k : A → result B) : result B :=
  match m with
  | Done a => k a
  | Raised e => Raised e
  end.

Notation "x ←? m ; k" := (rbind m (λ x, k))
  (at level 20, m at level 100, k at level 200, right associativity,
   format "x  ←?  m ;  '/' k").

Definition completes {A} (r : result A) : Prop :=
  match r with Done _ => True | Raised _ => False end.

(** ** Strings and paths *)

Definition slash : ascii := "/"%char.

Definition ascii_lower (c : ascii) : ascii :=
  let n := nat_of_ascii c in
  if (65 <=? n) && (n <=? 90) then ascii_of_nat (n + 32) else c.

Fixpoint lower (s : string) : string :=
  match s with
  | EmptyString => EmptyString
  | String c r => String (ascii_lower c) (lower r)
  end.

(** [s.endswith(suf)] *)
Fixpoint endswith (s suf : string) : bool :=
  if String.eqb s suf then true
  else match s with
       | EmptyString => false
       | String _ r => endswith r suf
       end.

Definition startswith_slash (s : string) : bool :=
  match s with
  | String c _ => Ascii.eqb c slash
  | EmptyString => false
  end.

Fixpoint has_slash (s : string) : bool :=
  match s with
  | EmptyString => false
  | String c r => Ascii.eqb c slash || has_slash r
  end.

(** [os.path.join(a, b)] of posixpath. *)
Definition path_join (a b : string) : string :=
  if startswith_slash b then b
  else if String.eqb a "" || endswith a "/" then a +:+ b
  else a +:+ "/" +:+ b.

(** [os.path.basename(p)]: what follows the last slash. *)
Fixpoint basename (p : string) : string :=
  match p with
  | EmptyString => EmptyString
  | String c r => if has_slash p then basename r else p
  end.

(** [f"{n:05d}"]: decimal, zero-padded on the left to at least five digits. *)
Definition pad_uint (w : nat) (d : Decimal.uint) : Decimal.uint :=
  Nat.iter (w - Decimal.nb_digits d) Decimal.D0 d.

Definition format_05d (n : nat) : string :=
  NilEmpty.string_of_uint (pad_uint 5 (Nat.to_uint n)).

(** ** The file system as the program sees it *)

Record filesystem : Type := {
  fs_exists : string → bool;
  fs_isdir : string → bool;
  fs_listdir : string → option (list string);
  fs_read : string → option string;
  fs_image_size : string → option (Z * Z)
}.

Definition listdir (fs : filesystem) (path : string) : result (list string) :=
  match fs_listdir fs path with
  | Some entries => Done entries
  | None => Raised OSError
  end.

(** ** Layout resolver: [find_image_folder] *)

Definition image_extensions : list string :=
  [".png"; ".jpg"; ".jpeg"; ".webp"; ".gif"; ".bmp"].

Definition is_image_name (f : string) : bool :=
  existsb (endswith (lower f)) image_extensions.

Definition excluded_names : list string :=
  ["__pycache__"; ".git"; "__MACOSX"; ".DS_Store"].

Definition get_subdirs (fs : filesystem) (path : string) : result (list string) :=
  if negb (fs_exists fs path) then Done []
  else
    entries ←? listdir fs path;
    Done (filter (λ d, fs_isdir fs (path_join path d) = true ∧ d ∉ excluded_names)
                 entries).

Definition has_images (fs : filesystem) (folder : string) : bool :=
  match fs_listdir fs folder with
  | Some files => existsb is_image_name (take 20 files)
  | None => false
  end.

(** [{d.lower(): d for d in subdirs}]: a later entry replaces an earlier one
    with the same lower-cased name. *)
Definition subdir_lower (subdirs : list string) : gmap string string :=
  foldl (λ m d, <[lower d := d]> m) ∅ subdirs.

Record layout : Type := {
  lay_train : string;
  lay_test : option string;
  lay_base : string
}.

(** The inner loop [for t in ['test', 'val', 'validation']]. *)
Fixpoint find_test_dir (path : string) (sl : gmap string string)
    (names : list string) : option string :=
  match names with
  | [] => None
  | t :: ts =>
      match sl !! t with
      | Some d => Some (path_join path d)
      | None => find_test_dir path sl ts
      end
  end.

(** The loop [for name in ['train', 'training']]; [None] when it falls
    through without returning. *)
Fixpoint check_train (fs : filesystem) (path : string) (sl : gmap string string)
    (names : list string) : result (option layout) :=
  match names with
  | [] => Done None
  | name :: rest =>
      match sl !! name with
      | Some d =>
          let train_dir := path_join path d in
          train_subdirs ←? get_subdirs fs train_dir;
          match train_subdirs with
          | c :: _ =>
              if has_images fs (path_join train_dir c) then
                Done (Some {| lay_train := train_dir;
                              lay_test := find_test_dir path sl ["test"; "val"; "validation"];
                              lay_base := path |})
              else check_train fs path sl rest
          | [] => check_train fs path sl rest
          end
      | None => check_train fs path sl rest
      end
  end.

(** [search(path, depth)].  The recursion is on [levels = max_depth + 1 - depth],
    the number of levels still allowed: [levels = 0] is the guard
    [depth > max_depth]. *)
Fixpoint search (fs : filesystem) (levels : nat) (path : string)
    : result (option layout) :=
  match levels with
  | 0 => Done None
  | S levels' =>
      subdirs ←? get_subdirs fs path;
      let sl := subdir_lower subdirs in
      found ←? check_train fs path sl ["train"; "training"];
      match found with
      | Some l => Done (Some l)
      | None =>
          let flat :=
            match subdirs with
            | c :: _ :: _ => has_images fs (path_join path c)
            | _ => false
            end in
          if flat then
            Done (Some {| lay_train := path; lay_test := None; lay_base := path |})
          else
            (fix each (ds : list string) : result (option layout) :=
               match ds with
               | [] => Done None
               | d :: ds' =>
                   r ←? search fs levels' (path_join path d);
                   match r with
                   | Some l => Done (Some l)
                   | None => each ds'
                   end
               end) subdirs
      end
  end.

Definition find_image_folder (fs : filesystem) (base_path : string)
    (max_depth : nat) : result (option layout) :=
  search fs (S max_depth) base_path.

(** ** Class indexer and sample collection *)

(** A sample is [(img_path, label)]. *)
Definition sample : Type := string * nat.

(** [collect_images(class_dir, class_idx)] *)
Definition collect_images (fs : filesystem) (class_dir : string) (class_idx : nat)
    : result (list sample) :=
  entries ←? listdir fs class_dir;
  Done ((λ img_file, (path_join class_dir img_file, class_idx))
          <$> filter (λ img_file, is_image_name img_file = true) entries).

(** [sorted(names)] on Python strings: the code-point order. *)
Definition sorted (names : list string) : list string :=
  merge_sort String.le names.

(** The comprehension [[d for d in listing if isdir(train_dir/d) and d not in
    ['__pycache__', '__MACOSX']]]. *)
Definition class_folders (fs : filesystem) (train_dir : string)
    (listing : list string) : list string :=
  filter (λ d, fs_isdir fs (path_join train_dir d) = true
               ∧ d ∉ ["__pycache__"; "__MACOSX"]) listing.

Definition class_names_of (fs : filesystem) (train_dir : string)
    : result (list string) :=
  listing ←? listdir fs train_dir;
  Done (sorted (class_folders fs train_dir listing)).

(** [enumerate(l)] *)
Definition enumerate {A} (l : list A) : list (nat * A) :=
  imap (λ idx x, (idx, x)) l.

(** [{name: idx for idx, name in enumerate(class_names)}] *)
Definition class_to_idx_of (class_names : list string) : gmap string nat :=
  foldl (λ m p, <[p.2 := p.1]> m) ∅ (enumerate class_names).

(** [class_to_idx[class_name]] *)
Definition class_label (class_to_idx : gmap string nat) (class_name : string)
    : result nat :=
  match class_to_idx !! class_name with
  | Some idx => Done idx
  | None => Raised KeyError
  end.

(** The loop filling [train_images] and [sample_img]. *)
Fixpoint collect_train (fs : filesystem) (train_dir : string)
    (class_to_idx : gmap string nat) (class_names : list string)
    (train_images : list sample) (sample_img : option string)
    : result (list sample * option string) :=
  match class_names with
  | [] => Done (train_images, sample_img)
  | class_name :: rest =>
      let class_dir := path_join train_dir class_name in
      idx ←? class_label class_to_idx class_name;
      imgs ←? collect_images fs class_dir idx;
      let sample_img' :=
        match sample_img, imgs with
        | None, img :: _ => Some img.1
        | _, _ => sample_img
        end in
      collect_train fs train_dir class_to_idx rest (train_images ++ imgs) sample_img'
  end.

(** The loop filling [test_images], run when [test_dir] is truthy. *)
Fixpoint collect_test (fs : filesystem) (test_dir : string)
    (class_to_idx : gmap string nat) (class_names : list string)
    (test_images : list sample) : result (list sample) :=
  match class_names with
  | [] => Done test_images
  | class_name :: rest =>
      let class_dir := path_join test_dir class_name in
      if fs_exists fs class_dir then
        idx ←? class_label class_to_idx class_name;
        imgs ←? collect_images fs class_dir idx;
        collect_test fs test_dir class_to_idx rest (test_images ++ imgs)
      else collect_test fs test_dir class_to_idx rest test_images
  end.

(** [get_image_dimensions(img_path)] *)
Definition get_image_dimensions (fs : filesystem) (img_path : string) : Z * Z :=
  match fs_image_size fs img_path with
  | Some size => size
  | None => (0, 0)%Z
  end.

(** ** Split planner *)

(** The generator behind [random.seed] and [random.shuffle]: a state, the
    seeding, and [_randbelow(n)], which returns a number below [n]. *)
Record generator : Type := {
  rng : Type;
  rng_seed : Z → rng;
  randbelow : rng → nat → nat * rng;
  randbelow_lt : ∀ g n, 0 < n → (randbelow g n).1 < n
}.

(** [x[i], x[j] = x[j], x[i]] *)
Definition swap {A} (x : list A) (i j : nat) : result (list A) :=
  match x !! j, x !! i with
  | Some xj, Some xi => Done (<[j := xi]> (<[i := xj]> x))
  | _, _ => Raised IndexError
  end.

(** [random.shuffle(x)]: [for i in reversed(range(1, len(x)))], with
    [j = randbelow(i + 1)].  [shuffle_from G i g x] runs the iterations
    [i, i-1, .., 1]. *)
Fixpoint shuffle_from {A} (G : generator) (i : nat) (g : rng G) (x : list A)
    : result (list A) :=
  match i with
  | 0 => Done x
  | S i' =>
      let (j, g') := randbelow G g (S i) in
      x' ←? swap x i j;
      shuffle_from G i' g' x'
  end.

(** [random.seed(42); random.shuffle(x)] *)
Definition seeded_shuffle {A} (G : generator) (x : list A) : result (list A) :=
  shuffle_from G (length x - 1) (rng_seed G 42) x.

(** [int(q)]: truncation towards zero. *)
Definition py_int (q : Q) : Z :=
  if Qle_bool 0 q then Qfloor q else Qceiling q.

(** Slice bounds: a negative index counts from the end, and indices are
    clipped to the list. *)
Definition slice_index {A} (l : list A) (k : Z) : nat :=
  if (k <? 0)%Z then Z.to_nat (Z.of_nat (length l) + k) else Z.to_nat k.

(** [l[k:]] and [l[:k]] *)
Definition slice_from {A} (l : list A) (k : Z) : list A := drop (slice_index l k) l.
Definition slice_to {A} (l : list A) (k : Z) : list A := take (slice_index l k) l.

(** [int(len(train_images) * (1 - val_split))] *)
Definition split_index (n : nat) (val_split : Q) : Z :=
  py_int (inject_Z (Z.of_nat n) * (1 - val_split))%Q.

(** Lines 261-265: returns [(train_images, val_images)]. *)
Definition split_train_val (test_dir : option string) (val_split : Q)
    (train_images : list sample) : list sample * list sample :=
  if bool_decide (test_dir = None) && negb (Qle_bool val_split 0) then
    let split_idx := split_index (length train_images) val_split in
    (slice_to train_images split_idx, slice_from train_images split_idx)
  else (train_images, []).

(** ** Record encoder and shard writer *)

(** The library functions the writer relies on: the protobuf serialization of
    a [tf.train.Example] with the features [image], [label] and [filename],
    the framing [TFRecordWriter] puts around one record, and
    [hashlib.md5(..).hexdigest()]. *)
Record codec : Type := {
  serialize_example : string → nat → string → string;
  tfrecord_frame : string → string;
  md5_hexdigest : string → string
}.

(** [create_example(img_path, label)] *)
Definition create_example (C : codec) (fs : filesystem) (img_path : string)
    (label : nat) : result string :=
  match fs_read fs img_path with
  | Some img_bytes => Done (serialize_example C img_bytes label (basename img_path))
  | None => Raised OSError
  end.

(** The shard files: each path holds the records written to it, in order. *)
Abbreviation disk := (gmap string (list string)).

(** The bytes of a shard file holding [records]. *)
Definition file_bytes (C : codec) (records : list string) : string :=
  foldr (λ r acc, tfrecord_frame C r +:+ acc) "" records.

(** [open(path, 'rb').read()] on a shard file. *)
Definition read_shard (C : codec) (d : disk) (path : string) : result string :=
  match d !! path with
  | Some records => Done (file_bytes C records)
  | None => Raised OSError
  end.

(** The local variables of [write_shards].  [writer] and [current_shard_path]
    are assigned together: [ws_writer = Some p] is an open writer on the
    path [p], [None] is [writer is None]. *)
Record writer_state : Type := {
  ws_shard_paths : list string;
  ws_checksums : gmap string string;
  ws_shard_idx : nat;
  ws_current_size : nat;
  ws_writer : option string;
  ws_disk : disk
}.

Definition ws_init (d : disk) : writer_state :=
  {| ws_shard_paths := []; ws_checksums := ∅; ws_shard_idx := 0;
     ws_current_size := 0; ws_writer := None; ws_disk := d |}.

(** [f"{output_prefix}-{shard_idx:05d}.tfrecord"] *)
Definition shard_path (output_prefix : string) (shard_idx : nat) : string :=
  output_prefix +:+ "-" +:+ format_05d shard_idx +:+ ".tfrecord".

(** [if writer: writer.close(); checksums[basename] = md5(read())] *)
Definition close_writer (C : codec) (st : writer_state) : result writer_state :=
  match ws_writer st with
  | Some p =>
      content ←? read_shard C (ws_disk st) p;
      Done {| ws_shard_paths := ws_shard_paths st;
              ws_checksums := <[basename p := md5_hexdigest C content]> (ws_checksums st);
              ws_shard_idx := ws_shard_idx st;
              ws_current_size := ws_current_size st;
              ws_writer := ws_writer st;
              ws_disk := ws_disk st |}
  | None => Done st
  end.

(** [current_size >= shard_size_bytes] *)
Definition size_reached (current_size : nat) (shard_size_bytes : Q) : bool :=
  Qle_bool shard_size_bytes (inject_Z (Z.of_nat current_size)).

(** Lines 159-170: roll over to a new shard when none is open or the
    threshold is reached. *)
Definition rollover (C : codec) (output_prefix : string) (shard_size_bytes : Q)
    (st : writer_state) : result writer_state :=
  if bool_decide (ws_writer st = None)
     || size_reached (ws_current_size st) shard_size_bytes then
    st' ←? close_writer C st;
    let current_shard_path := shard_path output_prefix (ws_shard_idx st') in
    Done {| ws_shard_paths := ws_shard_paths st' ++ [basename current_shard_path];
            ws_checksums := ws_checksums st';
            ws_shard_idx := ws_shard_idx st' + 1;
            ws_current_size := 0;
            ws_writer := Some current_shard_path;
            ws_disk := <[current_shard_path := []]> (ws_disk st') |}
  else Done st.

(** Lines 172-177: on success the record is appended and counted; an
    exception is reported and the sample skipped. *)
Definition write_sample (C : codec) (fs : filesystem) (img : sample)
    (st : writer_state) : writer_state :=
  match create_example C fs img.1 img.2, ws_writer st with
  | Done serialized, Some p =>
      {| ws_shard_paths := ws_shard_paths st;
         ws_checksums := ws_checksums st;
         ws_shard_idx := ws_shard_idx st;
         ws_current_size := ws_current_size st + String.length serialized;
         ws_writer := ws_writer st;
         ws_disk := <[p := (ws_disk st !!! p) ++ [serialized]]> (ws_disk st) |}
  | _, _ => st
  end.

(** The body of the loop [for img_path, label in images]. *)
Definition write_step (C : codec) (fs : filesystem) (output_prefix : string)
    (shard_size_bytes : Q) (st : writer_state) (img : sample)
    : result writer_state :=
  st' ←? rollover C output_prefix shard_size_bytes st;
  Done (write_sample C fs img st').

Fixpoint write_loop (C : codec) (fs : filesystem) (output_prefix : string)
    (shard_size_bytes : Q) (images : list sample) (st : writer_state)
    : result writer_state :=
  match images with
  | [] => Done st
  | img :: rest =>
      st' ←? write_step C fs output_prefix shard_size_bytes st img;
      write_loop C fs output_prefix shard_size_bytes rest st'
  end.

(** [write_shards(images, output_prefix, shard_size_bytes)], started on the
    disk [d]; returns [(shard_paths, checksums)] and the disk it leaves. *)
Definition write_shards (C : codec) (fs : filesystem) (d : disk)
    (images : list sample) (output_prefix : string) (shard_size_bytes : Q)
    : result (list string * gmap string string * disk) :=
  st ←? write_loop C fs output_prefix shard_size_bytes images (ws_init d);
  st' ←? close_writer C st;
  Done (ws_shard_paths st', ws_checksums st', ws_disk st').

(** ** Manifest and the conversion pipeline *)

Record request : Type := {
  req_shardSizeMB : Q;   (* data.get('shardSizeMB', 50) *)
  req_valSplit : Q       (* data.get('valSplit', 0.2) *)
}.

Record metadata : Type := {
  numClasses : nat;
  classNames : list string;
  trainSamples : nat;
  valSamples : nat;
  testSamples : nat;
  originalWidth : Z;
  originalHeight : Z;
  shardPaths_train : list string;
  shardPaths_val : list string;
  shardPaths_test : list string;
  md_checksums : gmap string string;
  shardSizeMB : Q
}.

(** Truthiness of [test_dir] in [if test_dir:]. *)
Definition truthy (test_dir : option string) : bool :=
  match test_dir with
  | Some s => negb (String.eqb s "")
  | None => false
  end.

(** What the conversion has computed when it reaches the manifest: the
    samples of each split as handed to the shard writer, the manifest, and
    the shard files. *)
Record conversion : Type := {
  cv_layout : layout;
  cv_class_to_idx : gmap string nat;
  cv_collected : list sample;      (* train_images before the shuffle *)
  cv_train_images : list sample;
  cv_val_images : list sample;
  cv_test_images : list sample;
  cv_metadata : metadata;
  cv_disk : disk
}.

(** Lines 238-332 of [convert_to_tfrecord], on the extracted tree under
    [tmpdir]. *)
Definition convert_to_tfrecord (G : generator) (C : codec) (fs : filesystem)
    (tmpdir : string) (req : request) : result conversion :=
  let shard_size_mb := req_shardSizeMB req in
  let val_split := req_valSplit req in
  let extract_dir := path_join tmpdir "extracted" in
  folders ←? find_image_folder fs extract_dir 4;
  match folders with
  | None => Raised TypeError
  | Some folders =>
      let train_dir := lay_train folders in
      let test_dir := lay_test folders in
      class_names ←? class_names_of fs train_dir;
      let class_to_idx := class_to_idx_of class_names in
      collected ←? collect_train fs train_dir class_to_idx class_names [] None;
      let dims :=
        match collected.2 with
        | Some sample_img => get_image_dimensions fs sample_img
        | None => (0, 0)%Z
        end in
      shuffled ←? seeded_shuffle G collected.1;
      let split := split_train_val test_dir val_split shuffled in
      let train_images := split.1 in
      let val_images := split.2 in
      test_images ←?
        (if truthy test_dir
         then collect_test fs (default "" test_dir) class_to_idx class_names []
         else Done []);
      let shards_dir := path_join tmpdir "shards" in
      let shard_size_bytes := (shard_size_mb * 1024 * 1024)%Q in
      train_out ←? write_shards C fs ∅ train_images
                     (path_join shards_dir "train") shard_size_bytes;
      val_out ←?
        (match val_images with
         | [] => Done ([], ∅, train_out.2)
         | _ => write_shards C fs train_out.2 val_images
                  (path_join shards_dir "val") shard_size_bytes
         end);
      test_out ←?
        (match test_images with
         | [] => Done ([], ∅, val_out.2)
         | _ => write_shards C fs val_out.2 test_images
                  (path_join shards_dir "test") shard_size_bytes
         end);
      (* all_checksums.update(..) thrice: a later update wins on a shared key *)
      let all_checksums := test_out.1.2 ∪ (val_out.1.2 ∪ (train_out.1.2 ∪ ∅)) in
      Done {| cv_layout := folders;
              cv_class_to_idx := class_to_idx;
              cv_collected := collected.1;
              cv_train_images := train_images;
              cv_val_images := val_images;
              cv_test_images := test_images;
              cv_metadata :=
                {| numClasses := length class_names;
                   classNames := class_names;
                   trainSamples := length train_images;
                   valSamples := length val_images;
                   testSamples := length test_images;
                   originalWidth := dims.1;
                   originalHeight := dims.2;
                   shardPaths_train := train_out.1.1;
                   shardPaths_val := val_out.1.1;
                   shardPaths_test := test_out.1.1;
                   md_checksums := all_checksums;
                   shardSizeMB := shard_size_mb |};
              cv_disk := test_out.2 |}
  end.

(** ** Concrete instances for the examples *)

(** A file system given by its directories (path and listing) and its files
    (path and content, [None] for a file that cannot be read). *)
Definition fs_of (dirs : list (string * list string))
    (files : list (string * option string)) : filesystem :=
  {| fs_exists p := bool_decide (p ∈ dirs.*1 ∨ p ∈ files.*1);
     fs_isdir p := bool_decide (p ∈ dirs.*1);
     fs_listdir p := (list_to_map dirs : gmap string (list string)) !! p;
     fs_read p := mjoin ((list_to_map files : gmap string (option string)) !! p);
     fs_image_size p := None |}.

(** A generator that always draws 0. *)
Program Definition zero_generator : generator :=
  {| rng := unit; rng_seed _ := tt; randbelow g n := (0, g) |}.
Next Obligation. intros g n Hn. exact Hn. Defined.

(** A codec whose records and digests can be read off: a record is the image
    bytes followed by the file name, a frame brackets it, and the digest is
    the content itself. *)
Definition plain_codec : codec :=
  {| serialize_example img label name := img +:+ ":" +:+ name;
     tfrecord_frame r := "[" +:+ r +:+ "]";
     md5_hexdigest content := content |}.

(** ** Specification vocabulary and examples *)

(** The name shard [i] is listed under: the [basename] of its path. *)
Definition shard_name (output_prefix : string) (i : nat) : string :=
  basename (shard_path output_prefix i).

(** The accumulated serialized size of the records of a shard, as
    [current_size] counts it. *)
Definition records_size (records : list string) : nat :=
  sum_list_with String.length records.

(** The records of a shard have reached the threshold. *)
Definition reaches (shard_size_bytes : Q) (records : list string) : Prop :=
  (shard_size_bytes <= inject_Z (Z.of_nat (records_size records)))%Q.

(** The records of the shards [0 .. n-1] of a split, in order. *)
Definition shard_records (d : disk) (prefix : string) (n : nat) : list string :=
  mjoin ((λ i, default [] (d !! shard_path prefix i)) <$> seq 0 n).

(** The records of the samples that can be encoded, in order. *)
Definition encoded (C : codec) (fs : filesystem) (images : list sample)
    : list string :=
  omap (λ img : sample,
          match create_example C fs img.1 img.2 with
          | Done serialized => Some serialized
          | Raised _ => None
          end) images.

(** The invariant of the loop of [write_shards] started on the disk [d0],
    once the records [written] have been written: the shards [0 .. idx-1]
    are listed, all but the open one are closed, checksummed and at or over
    the threshold, and no other file was touched. *)
Record ws_inv (C : codec) (prefix : string) (thr : Q) (d0 : disk)
    (written : list string) (st : writer_state) : Prop := {
  inv_records : shard_records (ws_disk st) prefix (ws_shard_idx st) = written;
  inv_paths : ws_shard_paths st = shard_name prefix <$> seq 0 (ws_shard_idx st);
  inv_writer :
    match ws_writer st with
    | None => ws_shard_idx st = 0
    | Some p =>
        ∃ k recs, ws_shard_idx st = S k ∧ p = shard_path prefix k
                  ∧ ws_disk st !! p = Some recs
                  ∧ ws_current_size st = records_size recs
    end;
  inv_sums :
    ∀ name, is_Some (ws_checksums st !! name)
            ↔ ∃ i, S i < ws_shard_idx st ∧ name = shard_name prefix i;
  inv_closed :
    ∀ i, S i < ws_shard_idx st →
      ∃ recs, ws_disk st !! shard_path prefix i = Some recs
              ∧ ws_checksums st !! shard_name prefix i
                = Some (md5_hexdigest C (file_bytes C recs))
              ∧ reaches thr recs;
  inv_frame :
    ∀ q, (∀ i, i < ws_shard_idx st → q ≠ shard_path prefix i) →
         ws_disk st !! q = d0 !! q
}.

(** What [write_shards] returns, for every input. *)
Record shards_spec (C : codec) (fs : filesystem) (images : list sample)
    (prefix : string) (thr : Q) (d0 : disk)
    (n : nat) (sums : gmap string string) (d : disk) : Prop := {
  spec_records : shard_records d prefix n = encoded C fs images;
  spec_sums :
    ∀ name, is_Some (sums !! name) ↔ ∃ i, i < n ∧ name = shard_name prefix i;
  spec_shard :
    ∀ i, i < n →
      ∃ recs, d !! shard_path prefix i = Some recs
              ∧ sums !! shard_name prefix i
                = Some (md5_hexdigest C (file_bytes C recs))
              ∧ (S i < n → reaches thr recs);
  spec_frame :
    ∀ q, (∀ i, i < n → q ≠ shard_path prefix i) → d !! q = d0 !! q
}.

Definition extract_dir_of (tmpdir : string) : string := path_join tmpdir "extracted".
Definition split_prefix (tmpdir split : string) : string :=
  path_join (path_join tmpdir "shards") split.
Definition shard_size_bytes_of (req : request) : Q :=
  (req_shardSizeMB req * 1024 * 1024)%Q.

(** What a completed conversion has computed, step by step. *)
Record converted (G : generator) (C : codec) (fs : filesystem) (tmpdir : string)
    (req : request) (cv : conversion) : Prop := {
  cf_layout :
    find_image_folder fs (extract_dir_of tmpdir) 4 = Done (Some (cv_layout cv));
  cf_names :
    class_names_of fs (lay_train (cv_layout cv)) = Done (classNames (cv_metadata cv));
  cf_index : cv_class_to_idx cv = class_to_idx_of (classNames (cv_metadata cv));
  cf_collect :
    ∃ sample_img,
      collect_train fs (lay_train (cv_layout cv)) (cv_class_to_idx cv)
        (classNames (cv_metadata cv)) [] None
      = Done (cv_collected cv, sample_img);
  cf_split :
    ∃ shuffled,
      seeded_shuffle G (cv_collected cv) = Done shuffled
      ∧ split_train_val (lay_test (cv_layout cv)) (req_valSplit req) shuffled
        = (cv_train_images cv, cv_val_images cv);
  cf_test :
    (if truthy (lay_test (cv_layout cv))
     then collect_test fs (default "" (lay_test (cv_layout cv)))
            (cv_class_to_idx cv) (classNames (cv_metadata cv)) []
     else Done [])
    = Done (cv_test_images cv);
  cf_counts :
    numClasses (cv_metadata cv) = length (classNames (cv_metadata cv))
    ∧ trainSamples (cv_metadata cv) = length (cv_train_images cv)
    ∧ valSamples (cv_metadata cv) = length (cv_val_images cv)
    ∧ testSamples (cv_metadata cv) = length (cv_test_images cv);
  cf_shards :
    ∃ sums1 d1 sums2 d2 sums3,
      write_shards C fs ∅ (cv_train_images cv) (split_prefix tmpdir "train")
        (shard_size_bytes_of req)
      = Done (shardPaths_train (cv_metadata cv), sums1, d1)
      ∧ write_shards C fs d1 (cv_val_images cv) (split_prefix tmpdir "val")
          (shard_size_bytes_of req)
        = Done (shardPaths_val (cv_metadata cv), sums2, d2)
      ∧ write_shards C fs d2 (cv_test_images cv) (split_prefix tmpdir "test")
          (shard_size_bytes_of req)
        = Done (shardPaths_test (cv_metadata cv), sums3, cv_disk cv)
      ∧ md_checksums (cv_metadata cv) = sums3 ∪ (sums2 ∪ (sums1 ∪ ∅))
}.

(** One split of the manifest against the shard files. *)
Record split_written (C : codec) (fs : filesystem) (thr : Q) (d : disk)
    (sums : gmap string string) (prefix : string) (images : list sample)
    (paths : list string) : Prop := {
  sw_paths : paths = shard_name prefix <$> seq 0 (length paths);
  sw_records : shard_records d prefix (length paths) = encoded C fs images;
  sw_shard :
    ∀ i, i < length paths →
      ∃ recs, d !! shard_path prefix i = Some recs
              ∧ sums !! shard_name prefix i
                = Some (md5_hexdigest C (file_bytes C recs))
              ∧ (S i < length paths → reaches thr recs)
}.

(** The same tree with other file contents. *)
Definition with_read (fs : filesystem) (read : string → option string)
    : filesystem :=
  {| fs_exists := fs_exists fs; fs_isdir := fs_isdir fs;
     fs_listdir := fs_listdir fs; fs_read := read;
     fs_image_size := fs_image_size fs |}.

Definition unreadable (fs : filesystem) (img : sample) : bool :=
  match fs_read fs img.1 with Some _ => false | None => true end.

(** Three readable samples of the example tree; each record takes 9 bytes. *)
Definition three_images : list sample :=
  [("/t/extracted/train/cat/c1.png", 0);
   ("/t/extracted/train/cat/c2.bmp", 0);
   ("/t/extracted/train/dog/d1.png", 1)].

(** A tree with a [train] and a [Test] folder; [d2.JPG] cannot be read, and
    the class [bird] exists under [Test] only. *)
Definition example_fs : filesystem :=
  fs_of [("/t/extracted", ["train"; "Test"]);
         ("/t/extracted/train", ["dog"; "cat"; "notes.txt"]);
         ("/t/extracted/train/dog", ["d1.png"; "d2.JPG"]);
         ("/t/extracted/train/cat", ["c1.png"; "readme.md"; "c2.bmp"]);
         ("/t/extracted/Test", ["cat"; "bird"]);
         ("/t/extracted/Test/cat", ["tc.png"]);
         ("/t/extracted/Test/bird", ["b.png"])]
        [("/t/extracted/train/notes.txt", Some "n");
         ("/t/extracted/train/dog/d1.png", Some "D1");
         ("/t/extracted/train/dog/d2.JPG", None);
         ("/t/extracted/train/cat/c1.png", Some "C1");
         ("/t/extracted/train/cat/readme.md", Some "r");
         ("/t/extracted/train/cat/c2.bmp", Some "C2");
         ("/t/extracted/Test/cat/tc.png", Some "TC");
         ("/t/extracted/Test/bird/b.png", Some "B")].

Definition example_request : request :=
  {| req_shardSizeMB := 50; req_valSplit := 0.2 |}.

Definition example_run : result conversion :=
  convert_to_tfrecord zero_generator plain_codec example_fs "/t" example_request.


(** [s] was collected from the folder of a class of [class_names] under
    [root], and carries that class's label. *)
Definition sample_of (fs : filesystem) (root : string)
    (class_to_idx : gmap string nat) (class_names : list string)
    (s : sample) : Prop :=
  ∃ class_name listing img_file,
    class_name ∈ class_names
    ∧ class_to_idx !! class_name = Some s.2
    ∧ fs_listdir fs (path_join root class_name) = Some listing
    ∧ img_file ∈ listing
    ∧ is_image_name img_file = true
    ∧ s.1 = path_join (path_join root class_name) img_file.

Definition train_names : list string := ["train"; "training"].
Definition test_names : list string := ["test"; "val"; "validation"].

(** The train folder is taken when its first listed subdirectory has an
    image among its first 20 entries. *)
Definition probed (fs : filesystem) (train_dir : string) : Prop :=
  ∃ c rest, get_subdirs fs train_dir = Done (c :: rest)
            ∧ has_images fs (path_join train_dir c) = true.

(** The probe of the train folder ran and failed. *)
Definition not_probed (fs : filesystem) (train_dir : string) : Prop :=
  ∃ subs, get_subdirs fs train_dir = Done subs
          ∧ ∀ c, head subs = Some c → has_images fs (path_join train_dir c) = false.


(** What [os.listdir] can return as a name: not empty, no slash. *)
Definition valid_name (s : string) : bool :=
  negb (String.eqb s "") && negb (has_slash s).

Definition listings_valid (fs : filesystem) : Prop :=
  ∀ p listing, fs_listdir fs p = Some listing → forallb valid_name listing = true.

(** [a] as the prefix [os.path.join(a, b)] puts before a relative [b]. *)
Definition dir_prefix (a : string) : string :=
  if String.eqb a "" || endswith a "/" then a else a +:+ "/".

(** A layout with a test root: both roots are subdirectories of the base,
    the one named like a train folder, the other like a test folder. *)
Definition layout_siblings (fs : filesystem) (l : layout) (test_dir : string)
    : Prop :=
  ∃ subdirs d1 d2,
    get_subdirs fs (lay_base l) = Done subdirs
    ∧ d1 ∈ subdirs ∧ d2 ∈ subdirs
    ∧ lower d1 ∈ train_names ∧ lower d2 ∈ test_names
    ∧ lay_train l = path_join (lay_base l) d1
    ∧ test_dir = path_join (lay_base l) d2.

(** A flat tree: two class folders directly under the root. *)
Definition flat_fs : filesystem :=
  fs_of [("/f", ["cat"; "dog"; "__MACOSX"]);
         ("/f/cat", ["c.png"]);
         ("/f/dog", ["d.gif"]);
         ("/f/__MACOSX", [])]
        [("/f/cat/c.png", Some "C"); ("/f/dog/d.gif", Some "D")].

(** A tree nested in two wrapper folders. *)
Definition wrapped_fs : filesystem :=
  fs_of [("/w", ["myproject-main"]);
         ("/w/myproject-main", ["data"]);
         ("/w/myproject-main/data", ["train"; "test"]);
         ("/w/myproject-main/data/train", ["cat"]);
         ("/w/myproject-main/data/train/cat", ["c.png"]);
         ("/w/myproject-main/data/test", ["cat"]);
         ("/w/myproject-main/data/test/cat", ["t.png"])]
        [("/w/myproject-main/data/train/cat/c.png", Some "C");
         ("/w/myproject-main/data/test/cat/t.png", Some "T")].

(** No directory listing names an entry twice. *)
Definition listings_nodup (fs : filesystem) : Prop :=
  ∀ p listing, fs_listdir fs p = Some listing → NoDup listing.

(** What can be listed exists. *)
Definition listings_exist (fs : filesystem) : Prop :=
  ∀ p listing, fs_listdir fs p = Some listing → fs_exists fs p = true.

(** The paths collected so far lie in the folders of the classes [seen]. *)
Definition paths_under (root : string) (seen : list string)
    (paths : list string) : Prop :=
  ∀ p, p ∈ paths →
    ∃ c f, c ∈ seen ∧ valid_name c = true ∧ valid_name f = true
           ∧ p = path_join (path_join root c) f.

(** In the shards [0 .. n-1], a record was added to a non-empty shard only
    while that shard was below the threshold. *)
Definition filled_below (thr : Q) (d : disk) (prefix : string) (n : nat) : Prop :=
  ∀ i recs k, i < n → d !! shard_path prefix i = Some recs →
    0 < k < length recs → ¬ reaches thr (take k recs).

(** Two writer states that differ only in the files that were on the disk
    before: the second run started on the empty disk. *)
Definition same_writer (d : disk) (st st0 : writer_state) : Prop :=
  ws_shard_paths st = ws_shard_paths st0
  ∧ ws_checksums st = ws_checksums st0
  ∧ ws_shard_idx st = ws_shard_idx st0
  ∧ ws_current_size st = ws_current_size st0
  ∧ ws_writer st = ws_writer st0
  ∧ ws_disk st = ws_disk st0 ∪ d.

(** A tree where the test folder holds a regular file named like the train
    class [cat]. *)
Definition file_class_fs : filesystem :=
  fs_of [("/t/extracted", ["train"; "test"]);
         ("/t/extracted/train", ["cat"]);
         ("/t/extracted/train/cat", ["c.png"]);
         ("/t/extracted/test", ["cat"])]
        [("/t/extracted/train/cat/c.png", Some "C");
         ("/t/extracted/test/cat", Some "not a folder")].

(** A tree with both a [val] and a [Test] folder beside [train]. *)
Definition test_and_val_fs : filesystem :=
  fs_of [("/p", ["val"; "train"; "Test"]);
         ("/p/train", ["cat"]); ("/p/train/cat", ["c.png"]);
         ("/p/val", ["cat"]); ("/p/val/cat", ["v.png"]);
         ("/p/Test", ["cat"]); ("/p/Test/cat", ["t.png"])]
        [("/p/train/cat/c.png", Some "C"); ("/p/val/cat/v.png", Some "V");
         ("/p/Test/cat/t.png", Some "T")].

(** [s.rsplit('/', 1)[0]]: what precedes the last slash, or all of [s] when
    it has none. *)
Fixpoint rsplit_head (s : string) : string :=
  match s with
  | EmptyString => EmptyString
  | String c r =>
      if has_slash r then String c (rsplit_head r)
      else if Ascii.eqb c slash then EmptyString
      else s
  end.

(** [zip_gcs_path.rsplit('/', 1)[0] + '/shards'] *)
Definition shards_gcs_prefix_of (zip_gcs_path : string) : string :=
  rsplit_head zip_gcs_path +:+ "/shards".

(** [f"{shards_gcs_prefix}/{filename}"] *)
Definition gcs_path_of (zip_gcs_path filename : string) : string :=
  shards_gcs_prefix_of zip_gcs_path +:+ "/" +:+ filename.

(** * Properties *)

(** ** Strings, paths and shard names *)

Example format_05d_examples :
  format_05d 7 = "00007" ∧ format_05d 420 = "00420" ∧ format_05d 0 = "00000".
Proof. by vm_compute. Qed.

Example path_examples :
  path_join "/a" "b" = "/a/b" ∧ path_join "/a/" "b" = "/a/b"
  ∧ path_join "/a" "/b" = "/b" ∧ basename "/a/b/c.png" = "c.png"
  ∧ shard_path "/t/shards/train" 3 = "/t/shards/train-00003.tfrecord".
Proof. by vm_compute. Qed.

Example is_image_name_examples :
  is_image_name "x.JpEg" = true ∧ is_image_name "notes.txt" = false
  ∧ is_image_name ".png" = true ∧ is_image_name "png" = false.
Proof. by vm_compute. Qed.

Lemma string_app_nil_l (s : string) : "" +:+ s = s.
Proof. reflexivity. Qed.

Lemma string_app_cons (c : ascii) (s t : string) :
  String c s +:+ t = String c (s +:+ t).
Proof. reflexivity. Qed.

Lemma string_app_assoc (s t u : string) : (s +:+ t) +:+ u = s +:+ (t +:+ u).
Proof.
  induction s as [|c s IH]; [done|].
  rewrite !string_app_cons. by rewrite IH.
Qed.

Lemma string_app_length (s t : string) :
  String.length (s +:+ t) = String.length s + String.length t.
Proof.
  induction s as [|c s IH]; [done|].
  rewrite string_app_cons. simpl. by rewrite IH.
Qed.

Lemma string_app_inv_tail (s1 s2 t : string) : s1 +:+ t = s2 +:+ t → s1 = s2.
Proof.
  revert s2. induction s1 as [|c s1 IH]; intros [|c2 s2] Heq.
  - done.
  - apply (f_equal String.length) in Heq.
    rewrite string_app_cons, string_app_nil_l in Heq. simpl in Heq.
    rewrite string_app_length in Heq. lia.
  - apply (f_equal String.length) in Heq.
    rewrite string_app_cons, string_app_nil_l in Heq. simpl in Heq.
    rewrite string_app_length in Heq. lia.
  - rewrite !string_app_cons in Heq. injection Heq as -> Heq.
    f_equal. by apply IH.
Qed.

Lemma has_slash_app (s t : string) :
  has_slash (s +:+ t) = has_slash s || has_slash t.
Proof.
  induction s as [|c s IH]; [done|].
  rewrite string_app_cons. simpl. rewrite IH. by rewrite orb_assoc.
Qed.

Lemma basename_noslash (s : string) : has_slash s = false → basename s = s.
Proof. destruct s as [|c s]; [done|]. simpl. by intros ->. Qed.

Lemma basename_app (s t : string) :
  has_slash t = false → basename (s +:+ t) = basename s +:+ t.
Proof.
  intros Ht. induction s as [|c s IH].
  - rewrite string_app_nil_l. by apply basename_noslash.
  - rewrite string_app_cons.
    change (basename (String c (s +:+ t)))
      with (if has_slash (String c (s +:+ t)) then basename (s +:+ t)
            else String c (s +:+ t)).
    change (basename (String c s))
      with (if has_slash (String c s) then basename s else String c s).
    rewrite <- string_app_cons, has_slash_app, Ht, orb_false_r.
    destruct (has_slash (String c s)); [exact IH|done].
Qed.

Lemma string_of_uint_noslash (d : Decimal.uint) :
  has_slash (NilEmpty.string_of_uint d) = false.
Proof. induction d; simpl; done. Qed.

Lemma of_uint_pad (w : nat) (d : Decimal.uint) :
  Nat.of_uint (pad_uint w d) = Nat.of_uint d.
Proof.
  unfold pad_uint. induction (w - Decimal.nb_digits d) as [|k IH]; [done|].
  simpl. rewrite <- IH. reflexivity.
Qed.

Lemma format_05d_inj (n m : nat) : format_05d n = format_05d m → n = m.
Proof.
  unfold format_05d. intros Heq.
  apply (f_equal NilEmpty.uint_of_string) in Heq.
  rewrite !NilEmpty.usu in Heq. injection Heq as Heq.
  apply (f_equal Nat.of_uint) in Heq.
  rewrite !of_uint_pad, !Unsigned.of_to in Heq. exact Heq.
Qed.

Lemma format_05d_noslash (n : nat) : has_slash (format_05d n) = false.
Proof. apply string_of_uint_noslash. Qed.

Lemma shard_path_inj (prefix : string) (i j : nat) :
  shard_path prefix i = shard_path prefix j → i = j.
Proof.
  unfold shard_path. intros Heq.
  apply (inj (String.app prefix)) in Heq.
  apply (inj (String.app "-")) in Heq.
  apply string_app_inv_tail in Heq. by apply format_05d_inj.
Qed.

Lemma basename_shard_path (prefix : string) (i : nat) :
  basename (shard_path prefix i)
  = basename prefix +:+ "-" +:+ format_05d i +:+ ".tfrecord".
Proof.
  unfold shard_path. apply basename_app.
  rewrite !has_slash_app, format_05d_noslash. reflexivity.
Qed.

Lemma shard_name_inj (prefix : string) (i j : nat) :
  basename (shard_path prefix i) = basename (shard_path prefix j) → i = j.
Proof.
  rewrite !basename_shard_path. intros Heq.
  apply (inj (String.app (basename prefix))) in Heq.
  apply (inj (String.app "-")) in Heq.
  apply string_app_inv_tail in Heq. by apply format_05d_inj.
Qed.

Ltac ws_simpl :=
  cbn [ws_shard_paths ws_checksums ws_shard_idx ws_current_size ws_writer
       ws_disk] in *.

Lemma seq_names_snoc (prefix : string) (n : nat) :
  shard_name prefix <$> seq 0 (n + 1)
  = (shard_name prefix <$> seq 0 n) ++ [shard_name prefix n].
Proof. by rewrite Nat.add_1_r, seq_S, fmap_app. Qed.

Lemma shard_records_insert_ge d prefix n k v :
  n ≤ k → shard_records (<[shard_path prefix k := v]> d) prefix n
          = shard_records d prefix n.
Proof.
  intros Hn. unfold shard_records. f_equal. apply list_fmap_ext.
  intros j i Hi. apply lookup_seq in Hi as [-> Hi].
  rewrite lookup_insert_ne; [done|].
  intros Heq. apply shard_path_inj in Heq. simpl in *. lia.
Qed.

Lemma shard_records_S d prefix n :
  shard_records d prefix (S n)
  = shard_records d prefix n ++ default [] (d !! shard_path prefix n).
Proof.
  unfold shard_records. rewrite seq_S, fmap_app, join_app. simpl.
  by rewrite app_nil_r.
Qed.

Lemma ws_inv_init C prefix thr d0 : ws_inv C prefix thr d0 [] (ws_init d0).
Proof.
  split; simpl; try done.
  - intros name. rewrite lookup_empty. split.
    + by intros [? ?].
    + intros (i & Hi & _). lia.
  - intros i Hi. lia.
Qed.

Lemma size_reached_reaches size thr recs :
  size = records_size recs → size_reached size thr = true → reaches thr recs.
Proof.
  intros -> H. unfold size_reached in H. by apply Qle_bool_iff in H.
Qed.

Lemma rollover_inv C prefix thr d0 written st :
  ws_inv C prefix thr d0 written st →
  ∃ st', rollover C prefix thr st = Done st'
         ∧ ws_inv C prefix thr d0 written st' ∧ is_Some (ws_writer st').
Proof.
  intros [Hrecs Hpaths Hwriter Hsums Hclosed Hframe].
  unfold rollover. destruct st as [paths sums idx size w d]; ws_simpl.
  destruct w as [p|]; ws_simpl.
  - rewrite bool_decide_eq_false_2 by done.
    destruct Hwriter as (k & recs & -> & -> & Hdisk & Hsize).
    destruct (size_reached size thr) eqn:Hreach; cbn [orb rbind].
    + unfold close_writer, read_shard; ws_simpl. rewrite Hdisk.
      cbn [rbind]; ws_simpl.
      eexists; split; [reflexivity|]. split; [|by eexists].
      split; ws_simpl.
      * rewrite Nat.add_1_r, shard_records_S, lookup_insert_eq.
        rewrite shard_records_insert_ge by lia. rewrite Hrecs.
        apply app_nil_r.
      * by rewrite seq_names_snoc, <- Hpaths.
      * exists (S k), []. rewrite lookup_insert_eq.
        split_and!; [lia|done..].
      * intros name. rewrite lookup_insert_is_Some, Hsums. split.
        -- intros [<-|[_ (i & Hi & ->)]]; [exists k|exists i]; split; (lia || done).
        -- intros (i & Hi & ->). destruct (decide (i = k)) as [->|Hne].
           ++ by left.
           ++ right. split.
              ** intros Heq. apply shard_name_inj in Heq. done.
              ** exists i. split; [lia|done].
      * intros i Hi. destruct (decide (i = k)) as [->|Hne].
        -- exists recs. rewrite lookup_insert_ne, lookup_insert_eq.
           ++ split_and!; [done..|]. by eapply size_reached_reaches.
           ++ intros Heq. apply shard_path_inj in Heq. lia.
        -- destruct (Hclosed i) as (recs' & Hd & Hs & Hr); [lia|].
           exists recs'. rewrite !lookup_insert_ne; [done|..].
           ++ intros Heq. apply shard_name_inj in Heq. done.
           ++ intros Heq. apply shard_path_inj in Heq. lia.
      * intros q Hq. rewrite lookup_insert_ne.
        -- apply Hframe. intros i Hi. apply Hq. lia.
        -- intros <-. by apply (Hq (S k)); [lia|].
    + eexists; split; [reflexivity|]. split; [|by eexists].
      split; ws_simpl; try done. by exists k, recs.
  - unfold close_writer; ws_simpl. subst idx.
    rewrite bool_decide_eq_true_2 by done. cbn [orb rbind]; ws_simpl.
    eexists; split; [reflexivity|]. split; [|by eexists].
    split; ws_simpl.
    + rewrite Nat.add_1_r, shard_records_S, lookup_insert_eq.
      rewrite shard_records_insert_ge by lia. rewrite Hrecs.
      apply app_nil_r.
    + by rewrite Hpaths.
    + exists 0, []. by rewrite lookup_insert_eq.
    + intros name. rewrite Hsums. split; intros (i & Hi & ->); lia.
    + intros i Hi. lia.
    + intros q Hq. rewrite lookup_insert_ne.
      * apply Hframe. intros i Hi. lia.
      * intros <-. by apply (Hq 0); [lia|].
Qed.

Lemma records_size_snoc (recs : list string) (r : string) :
  records_size (recs ++ [r]) = records_size recs + String.length r.
Proof.
  unfold records_size. rewrite sum_list_with_app. simpl. lia.
Qed.

Lemma encoded_cons C fs img images :
  encoded C fs (img :: images) = encoded C fs [img] ++ encoded C fs images.
Proof.
  unfold encoded. simpl.
  by destruct (create_example C fs img.1 img.2).
Qed.

Lemma write_sample_inv C fs prefix thr d0 written img st :
  ws_inv C prefix thr d0 written st → is_Some (ws_writer st) →
  ws_inv C prefix thr d0 (written ++ encoded C fs [img]) (write_sample C fs img st).
Proof.
  intros Hinv [p Hw]. unfold write_sample, encoded. simpl.
  destruct (create_example C fs img.1 img.2) as [serialized|e];
    [|by rewrite app_nil_r].
  rewrite Hw.
  destruct Hinv as [Hrecs Hpaths Hwriter Hsums Hclosed Hframe].
  rewrite Hw in Hwriter. destruct Hwriter as (k & recs & Hidx & -> & Hdisk & Hsize).
  split; ws_simpl; try done.
  - rewrite Hidx in *. rewrite shard_records_S in *.
    rewrite shard_records_insert_ge by lia.
    rewrite lookup_insert_eq, lookup_total_alt, Hdisk in *. simpl in *.
    by rewrite <- Hrecs, <- app_assoc.
  - exists k, (recs ++ [serialized]).
    rewrite lookup_insert_eq, lookup_total_alt, Hdisk, records_size_snoc, Hsize.
    done.
  - intros i Hi. destruct (Hclosed i Hi) as (recs' & Hd & Hs & Hr).
    exists recs'. rewrite lookup_insert_ne; [done|].
    intros Heq. apply shard_path_inj in Heq. lia.
  - intros q Hq. rewrite lookup_insert_ne.
    + by apply Hframe.
    + intros <-. apply (Hq k); [lia|done].
Qed.

Lemma write_loop_inv C fs prefix thr d0 written images st :
  ws_inv C prefix thr d0 written st →
  ∃ st', write_loop C fs prefix thr images st = Done st'
         ∧ ws_inv C prefix thr d0 (written ++ encoded C fs images) st'.
Proof.
  revert written st. induction images as [|img rest IH]; intros written st Hinv.
  - exists st. by rewrite app_nil_r.
  - destruct (rollover_inv C prefix thr d0 written st Hinv)
      as (st1 & Hroll & Hinv1 & Hopen).
    cbn [write_loop]. unfold write_step. rewrite Hroll. cbn [rbind].
    rewrite encoded_cons, app_assoc.
    apply IH. by apply write_sample_inv.
Qed.

Lemma write_shards_spec C fs d0 images prefix thr :
  ∃ n sums d,
    write_shards C fs d0 images prefix thr
    = Done (shard_name prefix <$> seq 0 n, sums, d)
    ∧ shards_spec C fs images prefix thr d0 n sums d.
Proof.
  destruct (write_loop_inv C fs prefix thr d0 [] images (ws_init d0))
    as (st & Hloop & [Hrecs Hpaths Hwriter Hsums Hclosed Hframe]);
    [apply ws_inv_init|].
  unfold write_shards. rewrite Hloop. cbn [rbind].
  unfold close_writer, read_shard.
  destruct (ws_writer st) as [p|] eqn:Hw.
  - destruct Hwriter as (k & recs & Hidx & -> & Hdisk & Hsize).
    rewrite Hdisk. cbn [rbind]; ws_simpl.
    eexists (ws_shard_idx st), _, _. rewrite <- Hpaths.
    split; [reflexivity|]. rewrite Hidx in *. split.
    + done.
    + intros name. rewrite lookup_insert_is_Some, Hsums. split.
      * intros [<-|[_ (i & Hi & ->)]]; [exists k|exists i]; split; (lia || done).
      * intros (i & Hi & ->). destruct (decide (i = k)) as [->|Hne]; [by left|].
        right. split.
        -- intros Heq. apply shard_name_inj in Heq. done.
        -- exists i. split; [lia|done].
    + intros i Hi. destruct (decide (i = k)) as [->|Hne].
      * exists recs. rewrite lookup_insert_eq. split_and!; [done..|lia].
      * destruct (Hclosed i) as (recs' & Hd & Hs & Hr); [lia|].
        exists recs'. rewrite lookup_insert_ne; [done|].
        intros Heq. apply shard_name_inj in Heq. done.
    + done.
  - cbn [rbind]. exists 0, (ws_checksums st), (ws_disk st).
    rewrite Hpaths, Hwriter. split; [reflexivity|]. split.
    + rewrite <- Hwriter. exact Hrecs.
    + intros name. rewrite Hsums, Hwriter. split; intros (i & Hi & _); lia.
    + intros i Hi. lia.
    + intros q Hq. apply Hframe. by rewrite Hwriter.
Qed.

Lemma write_shards_nil C fs d prefix thr :
  write_shards C fs d [] prefix thr = Done ([], ∅, d).
Proof. reflexivity. Qed.

Lemma endswith_slash_basename (a : string) :
  endswith a "/" = true → basename a = "".
Proof.
  induction a as [|c r IH]; [done|].
  cbn [endswith]. destruct (String.eqb_spec (String c r) "/") as [Heq|Hne].
  - intros _. by rewrite Heq.
  - intros Hr. specialize (IH Hr).
    assert (has_slash r = true) as Hs.
    { clear -Hr. induction r as [|c' r' IH']; [done|].
      cbn [endswith] in Hr. cbn [has_slash].
      destruct (String.eqb_spec (String c' r') "/") as [Heq|Hne].
      - injection Heq as -> ->. reflexivity.
      - rewrite (IH' Hr). apply orb_true_r. }
    cbn [basename has_slash]. rewrite Hs, orb_true_r. exact IH.
Qed.

Lemma basename_slash_app (a b : string) :
  has_slash b = false → basename (a +:+ "/" +:+ b) = b.
Proof.
  intros Hb. induction a as [|c r IH].
  - rewrite string_app_nil_l, string_app_cons, string_app_nil_l.
    cbn [basename has_slash]. simpl. by apply basename_noslash.
  - rewrite string_app_cons. cbn [basename].
    rewrite <- string_app_cons, has_slash_app.
    replace (has_slash ("/" +:+ b)) with true by reflexivity.
    rewrite orb_true_r. exact IH.
Qed.

Lemma noslash_startswith (b : string) :
  has_slash b = false → startswith_slash b = false.
Proof. destruct b as [|c r]; [done|]. simpl. by intros [? _]%orb_false_elim. Qed.

Lemma basename_path_join (a b : string) :
  has_slash b = false → basename (path_join a b) = b.
Proof.
  intros Hb. unfold path_join. rewrite (noslash_startswith b Hb).
  destruct (String.eqb_spec a "") as [->|Hne]; cbn [orb].
  - rewrite string_app_nil_l. by apply basename_noslash.
  - destruct (endswith a "/") eqn:Hend.
    + rewrite basename_app by done.
      by rewrite (endswith_slash_basename a Hend).
    + by apply basename_slash_app.
Qed.

Lemma shard_name_path_join (dir b : string) (i : nat) :
  has_slash b = false →
  shard_name (path_join dir b) i = b +:+ "-" +:+ format_05d i +:+ ".tfrecord".
Proof.
  intros Hb. unfold shard_name. by rewrite basename_shard_path, basename_path_join.
Qed.

(** The three splits of a conversion never share a shard name. *)
Lemma split_names_distinct (dir : string) (i j : nat) :
  shard_name (path_join dir "train") i ≠ shard_name (path_join dir "val") j
  ∧ shard_name (path_join dir "train") i ≠ shard_name (path_join dir "test") j
  ∧ shard_name (path_join dir "val") i ≠ shard_name (path_join dir "test") j.
Proof.
  rewrite !shard_name_path_join by reflexivity.
  rewrite !string_app_cons. split_and!; intros [=].
Qed.

Lemma rbind_Done {A B} (m : result A) (k : A → result B) (b : B) :
  rbind m k = Done b → ∃ a, m = Done a ∧ k a = Done b.
Proof. destruct m as [a|e]; [|done]. intros H. by exists a. Qed.

Lemma convert_Done G C fs tmpdir req cv :
  convert_to_tfrecord G C fs tmpdir req = Done cv →
  converted G C fs tmpdir req cv.
Proof.
  unfold convert_to_tfrecord. intros H.
  apply rbind_Done in H as ([folders|] & Hfolders & H); [|done].
  apply rbind_Done in H as (class_names & Hnames & H).
  apply rbind_Done in H as ([collected sample_img] & Hcollect & H).
  apply rbind_Done in H as (shuffled & Hshuffle & H).
  apply rbind_Done in H as (test_images & Htest & H).
  apply rbind_Done in H as ([[paths1 sums1] d1] & Htrain & H).
  apply rbind_Done in H as ([[paths2 sums2] d2] & Hval & H).
  apply rbind_Done in H as ([[paths3 sums3] d3] & Htestw & H).
  injection H as <-. cbn [fst snd] in *.
  assert (write_shards C fs d1 (split_train_val (lay_test folders)
            (req_valSplit req) shuffled).2 (split_prefix tmpdir "val")
            (shard_size_bytes_of req) = Done (paths2, sums2, d2)) as Hval'.
  { destruct (split_train_val _ _ _).2; [exact Hval|exact Hval]. }
  assert (write_shards C fs d2 test_images (split_prefix tmpdir "test")
            (shard_size_bytes_of req) = Done (paths3, sums3, d3)) as Htestw'.
  { destruct test_images; [exact Htestw|exact Htestw]. }
  split; cbn; try done.
  - by exists sample_img.
  - exists shuffled. split; [done|]. by destruct (split_train_val _ _ _).
  - by exists sums1, d1, sums2, d2, sums3.
Qed.

Lemma shard_path_name_ne (p q : string) (i j : nat) :
  shard_name p i ≠ shard_name q j → shard_path p i ≠ shard_path q j.
Proof. intros Hne Heq. apply Hne. unfold shard_name. by rewrite Heq. Qed.

Lemma shard_records_frame (d d' : disk) (prefix : string) (n : nat) :
  (∀ i, i < n → d' !! shard_path prefix i = d !! shard_path prefix i) →
  shard_records d' prefix n = shard_records d prefix n.
Proof.
  intros Hd. unfold shard_records. f_equal. apply list_fmap_ext.
  intros j i Hi. apply lookup_seq in Hi as [-> Hi]. simpl in *.
  by rewrite Hd.
Qed.

Lemma sums_lookup_None C fs images prefix thr d0 n sums d name :
  shards_spec C fs images prefix thr d0 n sums d →
  (∀ i, name ≠ shard_name prefix i) → sums !! name = None.
Proof.
  intros Hspec Hne. apply eq_None_not_Some.
  rewrite (spec_sums _ _ _ _ _ _ _ _ _ Hspec). intros (i & _ & ->).
  by apply (Hne i).
Qed.

Lemma write_shards_run C fs d0 images prefix thr paths sums d :
  write_shards C fs d0 images prefix thr = Done (paths, sums, d) →
  paths = shard_name prefix <$> seq 0 (length paths)
  ∧ shards_spec C fs images prefix thr d0 (length paths) sums d.
Proof.
  destruct (write_shards_spec C fs d0 images prefix thr)
    as (n & sums' & d' & -> & Hspec).
  intros [= <- <- <-]. by rewrite length_fmap, length_seq.
Qed.

Lemma manifest_splits G C fs tmpdir req cv :
  converted G C fs tmpdir req cv →
  let md := cv_metadata cv in
  let written := split_written C fs (shard_size_bytes_of req) (cv_disk cv)
                   (md_checksums md) in
  written (split_prefix tmpdir "train") (cv_train_images cv) (shardPaths_train md)
  ∧ written (split_prefix tmpdir "val") (cv_val_images cv) (shardPaths_val md)
  ∧ written (split_prefix tmpdir "test") (cv_test_images cv) (shardPaths_test md).
Proof.
  intros Hcv. destruct (cf_shards _ _ _ _ _ _ Hcv)
    as (sums1 & d1 & sums2 & d2 & sums3 & H1 & H2 & H3 & Hsums).
  apply write_shards_run in H1 as [Hp1 S1].
  apply write_shards_run in H2 as [Hp2 S2].
  apply write_shards_run in H3 as [Hp3 S3].
  cbv zeta. rewrite Hsums. unfold split_prefix in *.
  set (dir := path_join tmpdir "shards") in *.
  pose proof (split_names_distinct dir) as Hne.
  assert (∀ i, i < length (shardPaths_train (cv_metadata cv)) →
            cv_disk cv !! shard_path (path_join dir "train") i
            = d1 !! shard_path (path_join dir "train") i) as Hd1.
  { intros i Hi.
    rewrite (spec_frame _ _ _ _ _ _ _ _ _ S3), (spec_frame _ _ _ _ _ _ _ _ _ S2);
      [done|intros j _; apply shard_path_name_ne, Hne..]. }
  assert (∀ i, i < length (shardPaths_val (cv_metadata cv)) →
            cv_disk cv !! shard_path (path_join dir "val") i
            = d2 !! shard_path (path_join dir "val") i) as Hd2.
  { intros i Hi. rewrite (spec_frame _ _ _ _ _ _ _ _ _ S3); [done|].
    intros j _. apply shard_path_name_ne, Hne. }
  split_and!; split; try done.
  - rewrite (shard_records_frame d1); [|done].
    apply (spec_records _ _ _ _ _ _ _ _ _ S1).
  - intros i Hi. destruct (spec_shard _ _ _ _ _ _ _ _ _ S1 i Hi) as (recs & Hd & Hs & Hr).
    exists recs. rewrite Hd1 by done. split_and!; [done| |done].
    rewrite 2!lookup_union_r, lookup_union_l', Hs; [done|by rewrite Hs|..].
    + apply (sums_lookup_None _ _ _ _ _ _ _ _ _ _ S2). intros j. apply Hne.
    + apply (sums_lookup_None _ _ _ _ _ _ _ _ _ _ S3). intros j. apply Hne.
  - rewrite (shard_records_frame d2); [|done].
    apply (spec_records _ _ _ _ _ _ _ _ _ S2).
  - intros i Hi. destruct (spec_shard _ _ _ _ _ _ _ _ _ S2 i Hi) as (recs & Hd & Hs & Hr).
    exists recs. rewrite Hd2 by done. split_and!; [done| |done].
    rewrite lookup_union_r, lookup_union_l', Hs; [done|by rewrite Hs|].
    apply (sums_lookup_None _ _ _ _ _ _ _ _ _ _ S3). intros j. apply Hne.
  - apply (spec_records _ _ _ _ _ _ _ _ _ S3).
  - intros i Hi. destruct (spec_shard _ _ _ _ _ _ _ _ _ S3 i Hi) as (recs & Hd & Hs & Hr).
    exists recs. split_and!; [done| |done].
    by rewrite lookup_union_l', Hs; [|rewrite Hs].
Qed.

Lemma check_train_read fs read path sl names :
  check_train (with_read fs read) path sl names = check_train fs path sl names.
Proof.
  induction names as [|name rest IH]; [done|].
  cbn [check_train]. destruct (sl !! name) as [d|]; [|exact IH].
  change (get_subdirs (with_read fs read)) with (get_subdirs fs).
  change (has_images (with_read fs read)) with (has_images fs).
  by rewrite IH.
Qed.

Lemma search_read fs read levels path :
  search (with_read fs read) levels path = search fs levels path.
Proof.
  revert path. induction levels as [|n IH]; intros path; [done|].
  cbn [search]. change (get_subdirs (with_read fs read)) with (get_subdirs fs).
  change (has_images (with_read fs read)) with (has_images fs).
  destruct (get_subdirs fs path) as [subdirs|e]; cbn [rbind]; [|done].
  rewrite check_train_read.
  destruct (check_train fs path _ _) as [[l|]|e]; cbn [rbind]; [done| |done].
  destruct (match subdirs with c :: _ :: _ => _ | _ => false end); [done|].
  generalize subdirs as ds.
  induction ds as [|d ds IHds]; [done|].
  rewrite IH. destruct (search fs n (path_join path d)) as [[l|]|e];
    cbn [rbind]; [done|exact IHds|done].
Qed.

Lemma collect_train_read fs read train_dir idx names acc img :
  collect_train (with_read fs read) train_dir idx names acc img
  = collect_train fs train_dir idx names acc img.
Proof.
  revert acc img. induction names as [|c rest IH]; intros acc img; [done|].
  cbn [collect_train].
  change (collect_images (with_read fs read)) with (collect_images fs).
  destruct (class_label idx c) as [i|e]; cbn [rbind]; [|done].
  destruct (collect_images fs (path_join train_dir c) i) as [imgs|e];
    cbn [rbind]; [|done].
  apply IH.
Qed.

Lemma collect_test_read fs read test_dir idx names acc :
  collect_test (with_read fs read) test_dir idx names acc
  = collect_test fs test_dir idx names acc.
Proof.
  revert acc. induction names as [|c rest IH]; intros acc; [done|].
  cbn [collect_test].
  change (collect_images (with_read fs read)) with (collect_images fs).
  change (fs_exists (with_read fs read)) with (fs_exists fs).
  destruct (fs_exists fs (path_join test_dir c)); [|apply IH].
  destruct (class_label idx c) as [i|e]; cbn [rbind]; [|done].
  destruct (collect_images fs (path_join test_dir c) i) as [imgs|e];
    cbn [rbind]; [|done].
  apply IH.
Qed.

Lemma write_shards_completes C fs d images prefix thr :
  ∃ out, write_shards C fs d images prefix thr = Done out.
Proof.
  destruct (write_shards_spec C fs d images prefix thr) as (n & sums & d' & -> & _).
  by eexists.
Qed.

(** Whether the conversion completes does not depend on which files can be
    read. *)
Lemma convert_completes_read G C fs read tmpdir req :
  completes (convert_to_tfrecord G C fs tmpdir req) →
  completes (convert_to_tfrecord G C (with_read fs read) tmpdir req).
Proof.
  unfold convert_to_tfrecord, find_image_folder. rewrite search_read.
  destruct (search fs 5 _) as [[folders|]|e]; cbn [rbind]; [|done..].
  change (class_names_of (with_read fs read)) with (class_names_of fs).
  destruct (class_names_of fs _) as [class_names|e]; cbn [rbind]; [|done].
  rewrite collect_train_read.
  destruct (collect_train fs _ _ _ _ _) as [collected|e]; cbn [rbind]; [|done].
  destruct (seeded_shuffle G _) as [shuffled|e]; cbn [rbind]; [|done].
  rewrite collect_test_read.
  destruct (if truthy _ then _ else _) as [test_images|e]; cbn [rbind]; [|done].
  intros _.
  destruct (write_shards_completes C (with_read fs read) ∅
              (split_train_val (lay_test folders) (req_valSplit req) shuffled).1
              (path_join (path_join tmpdir "shards") "train")
              (req_shardSizeMB req * 1024 * 1024)%Q) as (out1 & ->).
  cbn [rbind].
  destruct (write_shards_completes C (with_read fs read) out1.2
              (split_train_val (lay_test folders) (req_valSplit req) shuffled).2
              (path_join (path_join tmpdir "shards") "val")
              (req_shardSizeMB req * 1024 * 1024)%Q) as (out2 & Hout2).
  destruct (split_train_val _ _ _).2 as [|v vs].
  - cbn [rbind].
    destruct (write_shards_completes C (with_read fs read) out1.2
                test_images (path_join (path_join tmpdir "shards") "test")
                (req_shardSizeMB req * 1024 * 1024)%Q) as (out3 & Hout3).
    destruct test_images; [done|]. cbn [snd]. by rewrite Hout3.
  - rewrite Hout2. cbn [rbind].
    destruct (write_shards_completes C (with_read fs read) out2.2
                test_images (path_join (path_join tmpdir "shards") "test")
                (req_shardSizeMB req * 1024 * 1024)%Q) as (out3 & Hout3).
    destruct test_images; [done|]. by rewrite Hout3.
Qed.

Lemma encoded_length C fs images :
  length (encoded C fs images) + length (filter (λ img, unreadable fs img = true) images)
  = length images.
Proof.
  induction images as [|img rest IH]; [done|].
  rewrite encoded_cons, length_app, filter_cons.
  destruct (decide (unreadable fs img = true)) as [Hu|Hu];
    unfold unreadable in Hu; unfold encoded at 1, create_example; simpl;
    destruct (fs_read fs img.1); simpl; (done || lia).
Qed.

(** ** Shard writer *)

(** C8: on an empty sample sequence the shard writer creates no shard file
    (the disk is left as it was) and returns an empty shard list and an
    empty checksum map. *)
Theorem write_shards_empty (C : codec) (fs : filesystem) (d : disk)
    (output_prefix : string) (shard_size_bytes : Q) :
  write_shards C fs d [] output_prefix shard_size_bytes = Done ([], ∅, d).
Proof. reflexivity. Qed.

(** C9: for every input the shard writer returns, and the keys of the
    checksum map it returns are exactly the names of the returned shard
    list. *)
Theorem checksum_keys_are_shard_paths (C : codec) (fs : filesystem) (d : disk)
    (images : list sample) (output_prefix : string) (shard_size_bytes : Q) :
  ∃ shard_paths checksums d',
    write_shards C fs d images output_prefix shard_size_bytes
    = Done (shard_paths, checksums, d')
    ∧ NoDup shard_paths
    ∧ ∀ name, name ∈ shard_paths ↔ is_Some (checksums !! name).
Proof.
  destruct (write_shards_spec C fs d images output_prefix shard_size_bytes)
    as (n & sums & d' & Hrun & Hspec).
  exists (shard_name output_prefix <$> seq 0 n), sums, d'.
  split; [exact Hrun|]. split.
  - apply NoDup_fmap_2_strong; [|apply NoDup_seq].
    intros i j _ _ Heq. by apply shard_name_inj in Heq.
  - intros name. rewrite (spec_sums _ _ _ _ _ _ _ _ _ Hspec), list_elem_of_fmap.
    split.
    + intros (i & -> & Hi). apply elem_of_seq in Hi. exists i. split; [lia|done].
    + intros (i & Hi & ->). exists i. split; [done|]. apply elem_of_seq. lia.
Qed.

(** C4: for every sample sequence and threshold, every shard of the returned
    list other than the last holds records whose accumulated serialized size
    has reached the threshold: a shard is closed in favour of a new one only
    at or after the threshold. *)
Theorem rollover_at_or_after_threshold (C : codec) (fs : filesystem) (d : disk)
    (images : list sample) (output_prefix : string) (shard_size_bytes : Q) :
  ∃ shard_paths checksums d',
    write_shards C fs d images output_prefix shard_size_bytes
    = Done (shard_paths, checksums, d')
    ∧ ∀ i name, shard_paths !! i = Some name → S i < length shard_paths →
        ∃ records,
          name = basename (shard_path output_prefix i)
          ∧ d' !! shard_path output_prefix i = Some records
          ∧ (shard_size_bytes <= inject_Z (Z.of_nat (records_size records)))%Q.
Proof.
  destruct (write_shards_spec C fs d images output_prefix shard_size_bytes)
    as (n & sums & d' & Hrun & Hspec).
  exists (shard_name output_prefix <$> seq 0 n), sums, d'.
  split; [exact Hrun|].
  intros i name Hi Hlast. rewrite length_fmap, length_seq in Hlast.
  apply list_lookup_fmap_Some in Hi as (j & -> & Hj).
  apply lookup_seq in Hj as [-> _]. simpl.
  destruct (spec_shard _ _ _ _ _ _ _ _ _ Hspec i) as (recs & Hd & _ & Hr); [lia|].
  exists recs. split_and!; [done..|]. by apply Hr.
Qed.

Lemma checksum_keys_are_shard_paths_witness :
  ∃ checksums d',
    write_shards plain_codec example_fs ∅ three_images "/t/shards/train" 12
    = Done (["train-00000.tfrecord"; "train-00001.tfrecord"], checksums, d')
    ∧ is_Some (checksums !! "train-00000.tfrecord")
    ∧ is_Some (checksums !! "train-00001.tfrecord")
    ∧ checksums !! "train-00002.tfrecord" = None.
Proof.
  destruct (checksum_keys_are_shard_paths plain_codec example_fs ∅ three_images
              "/t/shards/train" 12) as (paths & sums & d' & Hrun & _ & Hkeys).
  assert (match write_shards plain_codec example_fs ∅ three_images
                  "/t/shards/train" 12 with
          | Done out => out.1.1
          | Raised _ => []
          end = ["train-00000.tfrecord"; "train-00001.tfrecord"]) as Hout.
  { vm_compute. reflexivity. }
  rewrite Hrun in Hout. cbn [fst] in Hout. subst paths.
  exists sums, d'. split_and!; [exact Hrun|apply Hkeys..|].
  - by left.
  - right. by left.
  - apply eq_None_not_Some. intros Hin%Hkeys.
    rewrite !elem_of_cons, elem_of_nil in Hin. by destruct Hin as [?|[?|[]]].
Defined.

Lemma rollover_at_or_after_threshold_witness :
  ∃ checksums d' records,
    write_shards plain_codec example_fs ∅ three_images "/t/shards/train" 12
    = Done (["train-00000.tfrecord"; "train-00001.tfrecord"], checksums, d')
    ∧ d' !! "/t/shards/train-00000.tfrecord" = Some records
    ∧ (12 <= inject_Z (Z.of_nat (records_size records)))%Q.
Proof.
  destruct (rollover_at_or_after_threshold plain_codec example_fs ∅ three_images
              "/t/shards/train" 12) as (paths & sums & d' & Hrun & Hsize).
  assert (match write_shards plain_codec example_fs ∅ three_images
                  "/t/shards/train" 12 with
          | Done out => out.1.1
          | Raised _ => []
          end = ["train-00000.tfrecord"; "train-00001.tfrecord"]) as Hout.
  { vm_compute. reflexivity. }
  rewrite Hrun in Hout. cbn [fst] in Hout. subst paths.
  destruct (Hsize 0 "train-00000.tfrecord" eq_refl ltac:(simpl; lia))
    as (records & _ & Hd & Hr).
  exists sums, d', records. split_and!; [exact Hrun|exact Hd|exact Hr].
Defined.

(** C3, as stated, fails: one of four train samples cannot be read, the
    conversion completes, and [trainSamples] is still four. *)
Lemma unreadable_sample_still_counted :
  ∃ cv, example_run = Done cv
        ∧ length (cv_collected cv) = 4
        ∧ length (filter (λ img, unreadable example_fs img = true) (cv_train_images cv)) = 1
        ∧ trainSamples (cv_metadata cv) = 4
        ∧ trainSamples (cv_metadata cv) ≠ length (cv_collected cv) - 1.
Proof.
  eexists. split; [vm_compute; reflexivity|].
  vm_compute. split_and!; try reflexivity. discriminate.
Qed.

(** C3 (amended): when the conversion completes, it also completes whatever
    files can or cannot be read; the train shards hold the records of the
    readable train samples, in order, so one record fewer per unreadable
    sample; and [trainSamples] is the number of train samples handed to the
    shard writer, unreadable ones included. *)
Theorem skipped_sample_stays_in_count (G : generator) (C : codec)
    (fs : filesystem) (tmpdir : string) (req : request) (cv : conversion) :
  convert_to_tfrecord G C fs tmpdir req = Done cv →
  (∀ read, completes (convert_to_tfrecord G C (with_read fs read) tmpdir req))
  ∧ trainSamples (cv_metadata cv) = length (cv_train_images cv)
  ∧ shard_records (cv_disk cv) (split_prefix tmpdir "train")
      (length (shardPaths_train (cv_metadata cv)))
    = encoded C fs (cv_train_images cv)
  ∧ length (encoded C fs (cv_train_images cv))
    + length (filter (λ img, unreadable fs img = true) (cv_train_images cv))
    = trainSamples (cv_metadata cv).
Proof.
  intros Hrun. pose proof (convert_Done _ _ _ _ _ _ Hrun) as Hcv.
  destruct (manifest_splits _ _ _ _ _ _ Hcv) as (Htrain & _ & _).
  destruct (cf_counts _ _ _ _ _ _ Hcv) as (_ & Hn & _ & _).
  split_and!.
  - intros read. apply convert_completes_read. by rewrite Hrun.
  - exact Hn.
  - apply (sw_records _ _ _ _ _ _ _ _ Htrain).
  - rewrite Hn. apply encoded_length.
Qed.

Lemma skipped_sample_stays_in_count_witness :
  ∃ cv, example_run = Done cv
        ∧ length (encoded plain_codec example_fs (cv_train_images cv)) + 1
          = trainSamples (cv_metadata cv).
Proof.
  destruct example_run as [cv|e] eqn:Hrun; [|vm_compute in Hrun; discriminate].
  exists cv. split; [reflexivity|].
  destruct (skipped_sample_stays_in_count _ _ _ _ _ _ Hrun) as (_ & _ & _ & H).
  rewrite <- H. f_equal.
  vm_compute in Hrun. injection Hrun as <-. vm_compute. reflexivity.
Defined.

(** C7: every shard file the shard writer emits is read back, once closed,
    to the content whose digest is the checksum recorded under the shard's
    name; and in a completed conversion the same holds of every shard listed
    in the manifest, against the manifest's checksum map and the shard files
    as the conversion leaves them. *)
Theorem shard_checksums_valid (C : codec) (fs : filesystem) :
  (∀ (d : disk) (images : list sample) (output_prefix : string)
     (shard_size_bytes : Q),
     ∃ shard_paths checksums d',
       write_shards C fs d images output_prefix shard_size_bytes
       = Done (shard_paths, checksums, d')
       ∧ ∀ i name, shard_paths !! i = Some name →
           ∃ content,
             name = basename (shard_path output_prefix i)
             ∧ read_shard C d' (shard_path output_prefix i) = Done content
             ∧ checksums !! name = Some (md5_hexdigest C content))
  ∧ (∀ (G : generator) (tmpdir : string) (req : request) (cv : conversion),
       convert_to_tfrecord G C fs tmpdir req = Done cv →
       ∀ split shard_paths,
         (split, shard_paths) ∈ [("train", shardPaths_train (cv_metadata cv));
                                 ("val", shardPaths_val (cv_metadata cv));
                                 ("test", shardPaths_test (cv_metadata cv))] →
         ∀ i name, shard_paths !! i = Some name →
           ∃ content,
             name = basename (shard_path (split_prefix tmpdir split) i)
             ∧ read_shard C (cv_disk cv) (shard_path (split_prefix tmpdir split) i)
               = Done content
             ∧ md_checksums (cv_metadata cv) !! name
               = Some (md5_hexdigest C content)).
Proof.
  split.
  - intros d images prefix thr.
    destruct (write_shards_spec C fs d images prefix thr)
      as (n & sums & d' & Hrun & Hspec).
    exists (shard_name prefix <$> seq 0 n), sums, d'. split; [exact Hrun|].
    intros i name Hi. apply list_lookup_fmap_Some in Hi as (j & -> & Hj).
    apply lookup_seq in Hj as [-> Hi]. simpl in Hi.
    destruct (spec_shard _ _ _ _ _ _ _ _ _ Hspec i Hi) as (recs & Hd & Hs & _).
    exists (file_bytes C recs). unfold read_shard. rewrite Hd. done.
  - intros G tmpdir req cv Hrun split paths Hsplit i name Hi.
    pose proof (convert_Done _ _ _ _ _ _ Hrun) as Hcv.
    destruct (manifest_splits _ _ _ _ _ _ Hcv) as (Htrain & Hval & Htest).
    assert (split_written C fs (shard_size_bytes_of req) (cv_disk cv)
              (md_checksums (cv_metadata cv)) (split_prefix tmpdir split)
              (match split with
               | "train" => cv_train_images cv
               | "val" => cv_val_images cv
               | _ => cv_test_images cv
               end) paths) as Hw.
    { rewrite !elem_of_cons, elem_of_nil in Hsplit.
      destruct Hsplit as [[= -> ->]|[[= -> ->]|[[= -> ->]|[]]]]; done. }
    destruct Hw as [Hpaths _ Hshard].
    rewrite Hpaths in Hi. apply list_lookup_fmap_Some in Hi as (j & -> & Hj).
    apply lookup_seq in Hj as [-> Hi]. simpl in Hi.
    destruct (Hshard i Hi) as (recs & Hd & Hs & _).
    exists (file_bytes C recs). unfold read_shard. rewrite Hd. done.
Qed.

Lemma shard_checksums_valid_witness :
  ∃ cv content,
    example_run = Done cv
    ∧ shardPaths_train (cv_metadata cv) = ["train-00000.tfrecord"]
    ∧ read_shard plain_codec (cv_disk cv) "/t/shards/train-00000.tfrecord"
      = Done content
    ∧ md_checksums (cv_metadata cv) !! "train-00000.tfrecord"
      = Some (md5_hexdigest plain_codec content).
Proof.
  destruct example_run as [cv|e] eqn:Hrun; [|vm_compute in Hrun; discriminate].
  assert (shardPaths_train (cv_metadata cv) = ["train-00000.tfrecord"]) as Hp.
  { vm_compute in Hrun. injection Hrun as <-. reflexivity. }
  destruct (proj2 (shard_checksums_valid plain_codec example_fs)
              zero_generator "/t" example_request cv Hrun
              "train" (shardPaths_train (cv_metadata cv))
              ltac:(by left) 0 "train-00000.tfrecord"
              ltac:(by rewrite Hp))
    as (content & _ & Hread & Hsum).
  exists cv, content. split_and!; [reflexivity|exact Hp|exact Hread|exact Hsum].
Defined.

(** ** Split planner *)

Lemma swap_Done {A} (x : list A) (i j : nat) :
  i < length x → j < length x →
  ∃ x', swap x i j = Done x' ∧ x' ≡ₚ x.
Proof.
  intros Hi Hj. unfold swap.
  destruct (lookup_lt_is_Some_2 x i Hi) as [xi Hxi].
  destruct (lookup_lt_is_Some_2 x j Hj) as [xj Hxj].
  rewrite Hxi, Hxj. eexists. split; [reflexivity|].
  apply Permutation_inj. split; [by rewrite !length_insert|].
  exists (λ k, if decide (k = i) then j else if decide (k = j) then i else k).
  split.
  - intros a b. repeat case_decide; intros; subst; congruence.
  - intros k. rewrite !list_lookup_insert, !length_insert.
    repeat case_decide; subst; try done; try (exfalso; intuition lia).
    all: by destruct_and?; subst.
Qed.

Lemma shuffle_from_Done {A} (G : generator) (i : nat) (g : rng G) (x : list A) :
  i < length x ∨ i = 0 →
  ∃ x', shuffle_from G i g x = Done x' ∧ x' ≡ₚ x.
Proof.
  revert g x. induction i as [|i IH]; intros g x Hi.
  - by exists x.
  - cbn [shuffle_from].
    pose proof (randbelow_lt G g (S (S i)) ltac:(lia)) as Hj.
    destruct (randbelow G g (S (S i))) as [j g']. simpl in Hj.
    destruct (swap_Done x (S i) j) as (x1 & -> & Hperm1); [lia..|].
    cbn [rbind].
    destruct (IH g' x1) as (x' & Hrun & Hperm).
    { left. rewrite (Permutation_length Hperm1). lia. }
    exists x'. split; [exact Hrun|]. by rewrite Hperm.
Qed.

Lemma seeded_shuffle_Done {A} (G : generator) (x : list A) :
  ∃ x', seeded_shuffle G x = Done x' ∧ x' ≡ₚ x.
Proof.
  apply shuffle_from_Done. destruct x; simpl; [by right|left; lia].
Qed.




Lemma split_train_val_app (test_dir : option string) (f : Q)
    (shuffled : list sample) :
  (split_train_val test_dir f shuffled).1 ++ (split_train_val test_dir f shuffled).2
  = shuffled.
Proof.
  unfold split_train_val, slice_to, slice_from.
  destruct (_ && _); cbn [fst snd]; [apply take_drop|apply app_nil_r].
Qed.



(** ** Class indexer *)

Lemma sorted_Permutation (l1 l2 : list string) :
  l1 ≡ₚ l2 → sorted l1 = sorted l2.
Proof.
  intros Hperm. unfold sorted.
  apply (StronglySorted_unique String.le);
    [apply StronglySorted_merge_sort; apply _..|].
  by rewrite !merge_sort_Permutation.
Qed.

Lemma class_to_idx_of_snoc (l : list string) (x : string) :
  class_to_idx_of (l ++ [x]) = <[x := length l]> (class_to_idx_of l).
Proof.
  unfold class_to_idx_of, enumerate. rewrite imap_app, foldl_app. simpl.
  by rewrite Nat.add_0_r.
Qed.

Lemma class_to_idx_of_lookup (l : list string) (c : string) (i : nat) :
  NoDup l → class_to_idx_of l !! c = Some i ↔ l !! i = Some c.
Proof.
  induction l as [|x l IH] using rev_ind; intros Hnd.
  - unfold class_to_idx_of. simpl. by rewrite lookup_empty.
  - apply NoDup_app in Hnd as (Hnd & Hx & _).
    rewrite class_to_idx_of_snoc, lookup_insert_Some, (IH Hnd).
    rewrite lookup_app_Some, list_lookup_singleton_Some. split.
    + intros [[<- <-]|[Hne Hl]]; [right|by left].
      split; [lia|]. split; [lia|done].
    + intros [Hl|(Hi & Hi' & ->)].
      * right. split; [|done]. intros Heq. subst.
        eapply Hx; [by eapply list_elem_of_lookup_2|by left].
      * left. split; [done|lia].
Qed.

Lemma class_label_Done idx c i : class_label idx c = Done i → idx !! c = Some i.
Proof. unfold class_label. destruct (idx !! c); [|done]. by intros [= ->]. Qed.

Lemma collect_images_spec fs class_dir idx imgs s :
  collect_images fs class_dir idx = Done imgs → s ∈ imgs →
  ∃ listing img_file,
    fs_listdir fs class_dir = Some listing ∧ img_file ∈ listing
    ∧ is_image_name img_file = true
    ∧ s = (path_join class_dir img_file, idx).
Proof.
  unfold collect_images, listdir.
  destruct (fs_listdir fs class_dir) as [listing|]; [|done].
  cbn [rbind]. intros [= <-] Hs.
  apply list_elem_of_fmap in Hs as (f & -> & Hf).
  apply list_elem_of_filter in Hf as [Himg Hf]. by exists listing, f.
Qed.

Lemma sample_of_mono fs root idx names c s :
  sample_of fs root idx names s → sample_of fs root idx (c :: names) s.
Proof.
  intros (c' & listing & f & Hc & H). exists c', listing, f.
  split; [by right|done].
Qed.

Lemma collect_train_spec fs train_dir idx names acc img out :
  collect_train fs train_dir idx names acc img = Done out →
  ∀ s, s ∈ out.1 → s ∈ acc ∨ sample_of fs train_dir idx names s.
Proof.
  revert acc img. induction names as [|c rest IH]; intros acc img Hrun s Hs.
  - injection Hrun as <-. by left.
  - cbn [collect_train] in Hrun.
    apply rbind_Done in Hrun as (i & Hi & Hrun).
    apply rbind_Done in Hrun as (imgs & Himgs & Hrun).
    destruct (IH _ _ Hrun s Hs) as [Hacc|Hof].
    + apply elem_of_app in Hacc as [Hacc|Hnew]; [by left|right].
      destruct (collect_images_spec _ _ _ _ _ Himgs Hnew)
        as (listing & f & Hl & Hf & Himg & ->).
      exists c, listing, f. split_and!; try done; [by left|].
      by apply class_label_Done.
    + right. by apply sample_of_mono.
Qed.

Lemma collect_test_spec fs test_dir idx names acc out :
  collect_test fs test_dir idx names acc = Done out →
  ∀ s, s ∈ out → s ∈ acc ∨ sample_of fs test_dir idx names s.
Proof.
  revert acc. induction names as [|c rest IH]; intros acc Hrun s Hs.
  - injection Hrun as <-. by left.
  - cbn [collect_test] in Hrun.
    destruct (fs_exists fs (path_join test_dir c)).
    + apply rbind_Done in Hrun as (i & Hi & Hrun).
      apply rbind_Done in Hrun as (imgs & Himgs & Hrun).
      destruct (IH _ Hrun s Hs) as [Hacc|Hof].
      * apply elem_of_app in Hacc as [Hacc|Hnew]; [by left|right].
        destruct (collect_images_spec _ _ _ _ _ Himgs Hnew)
          as (listing & f & Hl & Hf & Himg & ->).
        exists c, listing, f. split_and!; try done; [by left|].
        by apply class_label_Done.
      * right. by apply sample_of_mono.
    + destruct (IH _ Hrun s Hs) as [Hacc|Hof]; [by left|].
      right. by apply sample_of_mono.
Qed.

(** C6: the class names are the class folders of the listing in
    lexicographic order, whatever the order of the listing; the label of a
    class is its position in that list, so the labels are [0 .. N-1]; and a
    conversion labels its train, validation and test samples with this one
    mapping. *)
Theorem class_labels_by_sorted_position (fs : filesystem) (train_dir : string)
    (listing listing' : list string) :
  NoDup listing → listing ≡ₚ listing' →
  let class_names := sorted (class_folders fs train_dir listing) in
  let class_to_idx := class_to_idx_of class_names in
  StronglySorted String.le class_names
  ∧ class_names ≡ₚ class_folders fs train_dir listing
  ∧ sorted (class_folders fs train_dir listing') = class_names
  ∧ (∀ c i, class_to_idx !! c = Some i ↔ class_names !! i = Some c)
  ∧ (∀ i, i < length class_names ↔ ∃ c, class_to_idx !! c = Some i)
  ∧ ∀ G C tmpdir req cv,
      convert_to_tfrecord G C fs tmpdir req = Done cv →
      lay_train (cv_layout cv) = train_dir →
      fs_listdir fs train_dir = Some listing →
      classNames (cv_metadata cv) = class_names
      ∧ cv_class_to_idx cv = class_to_idx
      ∧ (∀ s, s ∈ cv_train_images cv ++ cv_val_images cv →
              sample_of fs train_dir class_to_idx class_names s)
      ∧ (∀ test_dir s, lay_test (cv_layout cv) = Some test_dir →
              s ∈ cv_test_images cv →
              sample_of fs test_dir class_to_idx class_names s).
Proof.
  intros Hnd Hperm class_names class_to_idx.
  assert (class_names ≡ₚ class_folders fs train_dir listing) as Hnames.
  { apply merge_sort_Permutation. }
  assert (NoDup class_names) as Hnd'.
  { rewrite Hnames. by apply NoDup_filter. }
  assert (∀ c i, class_to_idx !! c = Some i ↔ class_names !! i = Some c) as Hidx.
  { intros c i. by apply class_to_idx_of_lookup. }
  split_and!; try done.
  - apply StronglySorted_merge_sort; apply _.
  - apply sorted_Permutation. unfold class_folders. by rewrite Hperm.
  - intros i. rewrite <- lookup_lt_is_Some. unfold is_Some.
    by setoid_rewrite Hidx.
  - intros G C tmpdir req cv Hrun Htrain Hlist.
    pose proof (convert_Done _ _ _ _ _ _ Hrun) as Hcv.
    pose proof (cf_names _ _ _ _ _ _ Hcv) as Hn.
    rewrite Htrain in Hn. unfold class_names_of, listdir in Hn.
    rewrite Hlist in Hn. cbn [rbind] in Hn. injection Hn as Hn.
    fold class_names in Hn.
    pose proof (cf_index _ _ _ _ _ _ Hcv) as Hi. rewrite <- Hn in Hi.
    fold class_to_idx in Hi.
    split_and!; [done..| |].
    + intros s Hs.
      destruct (cf_collect _ _ _ _ _ _ Hcv) as (img & Hcol).
      destruct (cf_split _ _ _ _ _ _ Hcv) as (shuffled & Hsh & Hsplit).
      destruct (seeded_shuffle_Done G (cv_collected cv)) as (x & Hx & Hp).
      rewrite Hsh in Hx. injection Hx as <-.
      pose proof (split_train_val_app (lay_test (cv_layout cv))
                    (req_valSplit req) shuffled) as Happ.
      rewrite Hsplit in Happ. cbn [fst snd] in Happ.
      rewrite Happ, Hp in Hs.
      rewrite Htrain, Hi, <- Hn in Hcol.
      destruct (collect_train_spec _ _ _ _ _ _ _ Hcol s Hs) as [Hnil|Hof];
        [by apply elem_of_nil in Hnil|done].
    + intros test_dir s Htest Hs.
      pose proof (cf_test _ _ _ _ _ _ Hcv) as Hct.
      rewrite Htest, Hi, <- Hn in Hct. cbn [default] in Hct.
      destruct (truthy (Some test_dir)).
      * destruct (collect_test_spec _ _ _ _ _ _ Hct s Hs) as [Hnil|Hof];
          [by apply elem_of_nil in Hnil|done].
      * injection Hct as Hnil. rewrite <- Hnil in Hs.
        by apply elem_of_nil in Hs.
Qed.

Lemma class_labels_by_sorted_position_witness :
  let class_to_idx :=
    class_to_idx_of
      (sorted (class_folders example_fs "/t/extracted/train"
                 ["dog"; "cat"; "notes.txt"])) in
  sorted (class_folders example_fs "/t/extracted/train" ["notes.txt"; "cat"; "dog"])
  = ["cat"; "dog"]
  ∧ class_to_idx !! "cat" = Some 0
  ∧ class_to_idx !! "dog" = Some 1.
Proof.
  destruct (class_labels_by_sorted_position example_fs "/t/extracted/train"
              ["dog"; "cat"; "notes.txt"] ["notes.txt"; "cat"; "dog"])
    as (_ & _ & Hsame & Hidx & _).
  { refine (bool_decide_unpack _ _). vm_compute. exact I. }
  { exact (Permutation_rev ["dog"; "cat"; "notes.txt"]). }
  split_and!.
  - rewrite Hsame. vm_compute. reflexivity.
  - apply Hidx. vm_compute. reflexivity.
  - apply Hidx. vm_compute. reflexivity.
Defined.

(** ** Layout resolver *)

Lemma subdir_lower_snoc (subdirs : list string) (d : string) :
  subdir_lower (subdirs ++ [d]) = <[lower d := d]> (subdir_lower subdirs).
Proof. unfold subdir_lower. by rewrite foldl_app. Qed.

Lemma subdir_lower_Some (subdirs : list string) (name d : string) :
  subdir_lower subdirs !! name = Some d → d ∈ subdirs ∧ lower d = name.
Proof.
  induction subdirs as [|x l IH] using rev_ind.
  - unfold subdir_lower. simpl. by rewrite lookup_empty.
  - rewrite subdir_lower_snoc, lookup_insert_Some.
    intros [[<- <-]|[_ Hl]].
    + split; [|done]. apply elem_of_app. right. by left.
    + destruct (IH Hl) as [Hd Hn]. split; [|done]. apply elem_of_app. by left.
Qed.

Lemma subdir_lower_None (subdirs : list string) (name : string) :
  subdir_lower subdirs !! name = None ↔ ∀ d, d ∈ subdirs → lower d ≠ name.
Proof.
  induction subdirs as [|x l IH] using rev_ind.
  - unfold subdir_lower. simpl. rewrite lookup_empty. split; [|done].
    intros _ d Hd. by apply elem_of_nil in Hd.
  - rewrite subdir_lower_snoc, lookup_insert_None, IH. split.
    + intros [Hl Hx] d Hd. apply elem_of_app in Hd as [Hd|Hd]; [by apply Hl|].
      apply list_elem_of_singleton in Hd as ->. done.
    + intros H. split.
      * intros d Hd. apply H, elem_of_app. by left.
      * apply H, elem_of_app. right. by left.
Qed.

Lemma find_test_dir_Some path sl names t :
  find_test_dir path sl names = Some t →
  ∃ name d, name ∈ names ∧ sl !! name = Some d ∧ t = path_join path d.
Proof.
  induction names as [|n rest IH]; [done|]. cbn [find_test_dir].
  destruct (sl !! n) as [d|] eqn:Hn.
  - intros [= <-]. exists n, d. split; [by left|done].
  - intros H. destruct (IH H) as (name & d & Hin & Hd & ->).
    exists name, d. split; [by right|done].
Qed.



Lemma check_train_not_probed fs path sl name :
  (sl !! name = None ∨ ∃ d, sl !! name = Some d ∧ not_probed fs (path_join path d)) →
  check_train fs path sl [name] = Done None.
Proof.
  intros [Hn|(d & Hd & subs & Hsubs & Himg)]; cbn [check_train].
  - by rewrite Hn.
  - rewrite Hd, Hsubs. cbn [rbind]. destruct subs as [|c rest]; [done|].
    by rewrite (Himg c).
Qed.

Lemma check_train_cons fs path sl name rest :
  check_train fs path sl (name :: rest)
  = r ←? check_train fs path sl [name];
    match r with Some l => Done (Some l) | None => check_train fs path sl rest end.
Proof.
  cbn [check_train]. destruct (sl !! name) as [d|]; [|done].
  destruct (get_subdirs fs (path_join path d)) as [[|c subs]|e]; cbn [rbind];
    [done| |done].
  by destruct (has_images fs _).
Qed.





(** ** Paths of the collected samples *)

Lemma valid_name_spec (s : string) :
  valid_name s = true ↔ s ≠ "" ∧ has_slash s = false.
Proof.
  unfold valid_name. rewrite andb_true_iff, !negb_true_iff.
  by rewrite String.eqb_neq.
Qed.

Lemma endswith_slash_has_slash (s : string) :
  endswith s "/" = true → has_slash s = true.
Proof.
  induction s as [|c r IH]; [done|]. cbn [endswith has_slash].
  destruct (String.eqb_spec (String c r) "/") as [Heq|Hne].
  - injection Heq as -> ->. done.
  - intros Hr. rewrite (IH Hr). apply orb_true_r.
Qed.

Lemma endswith_app_valid (s b : string) :
  valid_name b = true → endswith (s +:+ b) "/" = false.
Proof.
  intros [Hne Hb]%valid_name_spec. induction s as [|c r IH].
  - rewrite string_app_nil_l. apply not_true_is_false. intros H.
    apply endswith_slash_has_slash in H. congruence.
  - rewrite string_app_cons. cbn [endswith].
    destruct (String.eqb_spec (String c (r +:+ b)) "/") as [Heq|_]; [|exact IH].
    injection Heq as _ Heq. destruct r; [|done].
    rewrite string_app_nil_l in Heq. done.
Qed.

Lemma app_valid_ne (s b : string) : valid_name b = true → s +:+ b ≠ "".
Proof.
  intros [Hne _]%valid_name_spec. destruct s; [by rewrite string_app_nil_l|].
  by rewrite string_app_cons.
Qed.

Lemma valid_startswith (b : string) :
  valid_name b = true → startswith_slash b = false.
Proof. intros [_ Hb]%valid_name_spec. by apply noslash_startswith. Qed.

Lemma path_join_valid (a b : string) :
  valid_name b = true → path_join a b = dir_prefix a +:+ b.
Proof.
  intros Hb. unfold path_join, dir_prefix. rewrite (valid_startswith b Hb).
  destruct (String.eqb a "" || endswith a "/"); [done|].
  by rewrite string_app_assoc.
Qed.

Lemma path_join_app_valid (s b c : string) :
  valid_name b = true → valid_name c = true →
  path_join (s +:+ b) c = s +:+ b +:+ "/" +:+ c.
Proof.
  intros Hb Hc. unfold path_join. rewrite (valid_startswith c Hc).
  rewrite (endswith_app_valid s b Hb), orb_false_r.
  destruct (String.eqb_spec (s +:+ b) "") as [Heq|_].
  - by apply app_valid_ne in Heq.
  - by rewrite !string_app_assoc.
Qed.

Lemma noslash_split_inj (b b' x x' : string) :
  has_slash b = false → has_slash b' = false →
  b +:+ "/" +:+ x = b' +:+ "/" +:+ x' → b = b' ∧ x = x'.
Proof.
  revert b'. induction b as [|c r IH]; intros [|c' r'] Hb Hb' Heq.
  - rewrite (string_app_nil_l ("/" +:+ x)), (string_app_nil_l ("/" +:+ x')) in Heq.
    rewrite !string_app_cons in Heq. by injection Heq as ->%(inj (String.app "")).
  - rewrite (string_app_nil_l ("/" +:+ x)), !string_app_cons in Heq.
    injection Heq as <- _. simpl in Hb'. done.
  - rewrite (string_app_nil_l ("/" +:+ x')), !string_app_cons in Heq.
    injection Heq as -> _. simpl in Hb. done.
  - rewrite !string_app_cons in Heq. injection Heq as -> Heq.
    simpl in Hb, Hb'. apply orb_false_elim in Hb as [_ Hb].
    apply orb_false_elim in Hb' as [_ Hb'].
    destruct (IH r' Hb Hb' Heq) as [-> ->]. done.
Qed.

(** Two files in class folders under one root: the same path only for the
    same class and the same file. *)
Lemma class_file_path_inj (root c c' f f' : string) :
  valid_name c = true → valid_name c' = true →
  valid_name f = true → valid_name f' = true →
  path_join (path_join root c) f = path_join (path_join root c') f' →
  c = c' ∧ f = f'.
Proof.
  intros Hc Hc' Hf Hf'.
  rewrite (path_join_valid root c Hc), (path_join_valid root c' Hc').
  rewrite !path_join_app_valid by done.
  intros Heq. apply (inj (String.app (dir_prefix root))) in Heq.
  apply valid_name_spec in Hc as [_ Hc]. apply valid_name_spec in Hc' as [_ Hc'].
  by apply noslash_split_inj.
Qed.

Lemma path_join_3 (base d c f : string) :
  valid_name d = true → valid_name c = true → valid_name f = true →
  path_join (path_join (path_join base d) c) f
  = dir_prefix base +:+ d +:+ "/" +:+ c +:+ "/" +:+ f.
Proof.
  intros Hd Hc Hf. rewrite (path_join_valid base d Hd).
  rewrite (path_join_app_valid _ d c Hd Hc).
  rewrite <- (string_app_assoc d "/" c), <- (string_app_assoc _ (d +:+ "/") c).
  rewrite (path_join_app_valid _ c f Hc Hf).
  by rewrite !string_app_assoc.
Qed.

(** A file of a class folder under [base/d] and one under [base/d'], for two
    subdirectories of [base], have different paths. *)
Lemma sibling_file_path_ne (base d d' c c' f f' : string) :
  valid_name d = true → valid_name d' = true →
  valid_name c = true → valid_name c' = true →
  valid_name f = true → valid_name f' = true →
  d ≠ d' →
  path_join (path_join (path_join base d) c) f
  ≠ path_join (path_join (path_join base d') c') f'.
Proof.
  intros Hd Hd' Hc Hc' Hf Hf' Hne. rewrite !path_join_3 by done.
  intros Heq. apply (inj (String.app (dir_prefix base))) in Heq.
  apply valid_name_spec in Hd as [_ Hd]. apply valid_name_spec in Hd' as [_ Hd'].
  by apply noslash_split_inj in Heq as [? _].
Qed.

Lemma listings_valid_elem fs p listing x :
  listings_valid fs → fs_listdir fs p = Some listing → x ∈ listing →
  valid_name x = true.
Proof.
  intros Hfs Hl Hx. specialize (Hfs _ _ Hl).
  rewrite forallb_forall in Hfs. apply Hfs. by apply list_elem_of_In.
Qed.

Lemma get_subdirs_valid fs path subdirs d :
  listings_valid fs → get_subdirs fs path = Done subdirs → d ∈ subdirs →
  valid_name d = true.
Proof.
  intros Hfs. unfold get_subdirs, listdir.
  destruct (negb (fs_exists fs path)).
  - intros [= <-] Hd. by apply elem_of_nil in Hd.
  - destruct (fs_listdir fs path) as [listing|] eqn:Hl; [|done].
    cbn [rbind]. intros [= <-] Hd. apply list_elem_of_filter in Hd as [_ Hd].
    by eapply listings_valid_elem.
Qed.

Lemma fs_of_listings_valid dirs files :
  forallb (λ entry, forallb valid_name entry.2) dirs = true →
  listings_valid (fs_of dirs files).
Proof.
  intros Hdirs p listing Hl. cbn [fs_of fs_listdir] in Hl.
  apply elem_of_list_to_map_2 in Hl. rewrite forallb_forall in Hdirs.
  apply (Hdirs (p, listing)). by apply list_elem_of_In.
Qed.

Lemma check_train_Some fs path sl names l :
  check_train fs path sl names = Done (Some l) →
  ∃ name d, name ∈ names ∧ sl !! name = Some d
            ∧ lay_train l = path_join path d ∧ lay_base l = path
            ∧ lay_test l = find_test_dir path sl test_names.
Proof.
  induction names as [|n rest IH]; [done|]. cbn [check_train].
  assert (check_train fs path sl rest = Done (Some l) →
          ∃ name d, name ∈ n :: rest ∧ sl !! name = Some d
            ∧ lay_train l = path_join path d ∧ lay_base l = path
            ∧ lay_test l = find_test_dir path sl test_names) as IH'.
  { intros H. destruct (IH H) as (name & d & Hin & H'). exists name, d.
    split; [by right|done]. }
  destruct (sl !! n) as [d|] eqn:Hn; [|exact IH'].
  destruct (get_subdirs fs (path_join path d)) as [[|c subs]|e]; cbn [rbind];
    [exact IH'| |done].
  destruct (has_images fs _); [|exact IH'].
  intros [= <-]. exists n, d. split; [by left|done].
Qed.

Lemma search_siblings fs levels path l test_dir :
  search fs levels path = Done (Some l) → lay_test l = Some test_dir →
  layout_siblings fs l test_dir.
Proof.
  revert path. induction levels as [|n IH]; intros path; [done|].
  cbn [search].
  destruct (get_subdirs fs path) as [subdirs|e] eqn:Hsubs; cbn [rbind]; [|done].
  destruct (check_train fs path _ _) as [[l'|]|e] eqn:Hcheck; cbn [rbind];
    [| |done].
  - intros [= ->] Htest.
    apply check_train_Some in Hcheck as (name & d & Hname & Hd & Htr & Hb & Hte).
    rewrite Htest in Hte. symmetry in Hte.
    apply find_test_dir_Some in Hte as (t & d2 & Ht & Hd2 & ->).
    apply subdir_lower_Some in Hd as [Hd <-].
    apply subdir_lower_Some in Hd2 as [Hd2 <-].
    exists subdirs, d, d2. rewrite Hb. done.
  - destruct (match subdirs with c :: _ :: _ => _ | _ => false end).
    { intros [= <-]. done. }
    clear Hsubs Hcheck. induction subdirs as [|d ds IHds]; [done|].
    destruct (search fs n (path_join path d)) as [[l'|]|e] eqn:Hrec;
      cbn [rbind]; [|exact IHds|done].
    intros [= ->]. by eapply IH.
Qed.

(** ** Test folder *)

Lemma class_names_valid fs train_dir names c :
  listings_valid fs → class_names_of fs train_dir = Done names → c ∈ names →
  valid_name c = true.
Proof.
  intros Hfs. unfold class_names_of, listdir.
  destruct (fs_listdir fs train_dir) as [listing|] eqn:Hl; [|done].
  cbn [rbind]. intros [= <-] Hc. unfold sorted in Hc.
  rewrite merge_sort_Permutation in Hc.
  apply list_elem_of_filter in Hc as [_ Hc]. by eapply listings_valid_elem.
Qed.

Lemma class_to_idx_of_None (l : list string) (c : string) :
  c ∉ l → class_to_idx_of l !! c = None.
Proof.
  induction l as [|x l IH] using rev_ind; intros Hc.
  - unfold class_to_idx_of. simpl. apply lookup_empty.
  - rewrite class_to_idx_of_snoc. rewrite not_elem_of_app in Hc.
    destruct Hc as [Hl Hx]. rewrite lookup_insert_ne; [by apply IH|].
    intros ->. apply Hx. by left.
Qed.

Lemma train_test_names_disjoint (s : string) :
  s ∈ train_names → s ∈ test_names → False.
Proof.
  unfold train_names, test_names. rewrite !elem_of_cons, !elem_of_nil.
  intros [->|[->|[]]] [?|[?|[?|[]]]]; done.
Qed.

Lemma sample_of_valid fs root idx names s :
  listings_valid fs → (∀ c, c ∈ names → valid_name c = true) →
  sample_of fs root idx names s →
  ∃ c f, c ∈ names ∧ valid_name c = true ∧ valid_name f = true
         ∧ s.1 = path_join (path_join root c) f.
Proof.
  intros Hfs Hnames (c & listing & f & Hc & _ & Hl & Hf & _ & Hs).
  exists c, f. split_and!; [done|by apply Hnames| |done].
  by eapply listings_valid_elem.
Qed.

(** The samples of a completed conversion, by where they were collected. *)
Lemma converted_samples G C fs tmpdir req cv :
  converted G C fs tmpdir req cv →
  let class_names := classNames (cv_metadata cv) in
  (∀ s, s ∈ cv_collected cv →
        sample_of fs (lay_train (cv_layout cv)) (cv_class_to_idx cv) class_names s)
  ∧ (∀ test_dir s, lay_test (cv_layout cv) = Some test_dir →
        s ∈ cv_test_images cv →
        sample_of fs test_dir (cv_class_to_idx cv) class_names s).
Proof.
  intros Hcv class_names. split.
  - intros s Hs. destruct (cf_collect _ _ _ _ _ _ Hcv) as (img & Hcol).
    destruct (collect_train_spec _ _ _ _ _ _ _ Hcol s Hs) as [Hnil|Hof];
      [by apply elem_of_nil in Hnil|done].
  - intros test_dir s Htest Hs.
    pose proof (cf_test _ _ _ _ _ _ Hcv) as Hct.
    rewrite Htest in Hct. cbn [default] in Hct.
    destruct (truthy (Some test_dir)).
    + destruct (collect_test_spec _ _ _ _ _ _ Hct s Hs) as [Hnil|Hof];
        [by apply elem_of_nil in Hnil|done].
    + injection Hct as Hnil. rewrite <- Hnil in Hs. by apply elem_of_nil in Hs.
Qed.

(** C5, as stated, fails: a test folder was resolved, no validation split
    is made, and the train samples are shuffled all the same. *)
Lemma shuffled_despite_test_folder :
  ∃ cv, example_run = Done cv
        ∧ lay_test (cv_layout cv) = Some "/t/extracted/Test"
        ∧ cv_val_images cv = []
        ∧ seeded_shuffle zero_generator (cv_collected cv) = Done (cv_train_images cv)
        ∧ cv_train_images cv ≠ cv_collected cv.
Proof.
  eexists. split; [vm_compute; reflexivity|].
  vm_compute. split_and!; try reflexivity. discriminate.
Qed.

(** C5 (amended): the train samples are shuffled in every run, with or
    without a test root, and the train and validation lists are always the
    shuffled list cut in two.  With a test root there is no cut: the
    validation list is empty, whatever the validation fraction, and the train
    list is the whole shuffled list; the test samples are collected from the
    class folders of the test root, and none of them is a train sample. *)
Theorem shuffle_always_split_without_test (G : generator) (C : codec)
    (fs : filesystem) (tmpdir : string) (req : request) (cv : conversion) :
  convert_to_tfrecord G C fs tmpdir req = Done cv →
  ∃ shuffled,
    seeded_shuffle G (cv_collected cv) = Done shuffled
    ∧ shuffled ≡ₚ cv_collected cv
    ∧ cv_train_images cv ++ cv_val_images cv = shuffled
    ∧ ∀ test_dir, lay_test (cv_layout cv) = Some test_dir →
        cv_train_images cv = shuffled
        ∧ cv_val_images cv = []
        ∧ valSamples (cv_metadata cv) = 0
        ∧ shardPaths_val (cv_metadata cv) = []
        ∧ (∀ s, s ∈ cv_test_images cv →
                sample_of fs test_dir (cv_class_to_idx cv)
                  (classNames (cv_metadata cv)) s)
        ∧ (listings_valid fs →
           ∀ s s', s ∈ cv_test_images cv → s' ∈ cv_collected cv → s.1 ≠ s'.1).
Proof.
  intros Hrun. pose proof (convert_Done _ _ _ _ _ _ Hrun) as Hcv.
  destruct (cf_split _ _ _ _ _ _ Hcv) as (shuffled & Hsh & Hsplit).
  destruct (seeded_shuffle_Done G (cv_collected cv)) as (x & Hx & Hperm).
  rewrite Hsh in Hx. injection Hx as <-.
  pose proof (split_train_val_app (lay_test (cv_layout cv)) (req_valSplit req)
                shuffled) as Happ.
  rewrite Hsplit in Happ. cbn [fst snd] in Happ.
  destruct (converted_samples _ _ _ _ _ _ Hcv) as [Htrain_of Htest_of].
  exists shuffled. split_and!; [done..|].
  intros test_dir Htest. rewrite Htest in Hsplit.
  unfold split_train_val in Hsplit.
  rewrite bool_decide_eq_false_2 in Hsplit by done. cbn [andb] in Hsplit.
  injection Hsplit as Htr Hval.
  destruct (cf_counts _ _ _ _ _ _ Hcv) as (_ & _ & Hnval & _).
  destruct (cf_shards _ _ _ _ _ _ Hcv) as (s1 & d1 & s2 & d2 & s3 & _ & Hw & _).
  rewrite <- Hval in Hw, Hnval. rewrite write_shards_nil in Hw.
  injection Hw as Hpaths _ _.
  split_and!; [done..| |].
  - intros s. by apply Htest_of.
  - intros Hfs s s' Hs Hs'.
    assert (∀ c, c ∈ classNames (cv_metadata cv) → valid_name c = true)
      as Hnames.
    { intros c. apply (class_names_valid _ _ _ _ Hfs (cf_names _ _ _ _ _ _ Hcv)). }
    destruct (sample_of_valid _ _ _ _ _ Hfs Hnames (Htest_of _ _ Htest Hs))
      as (c & f & _ & Hc & Hf & ->).
    destruct (sample_of_valid _ _ _ _ _ Hfs Hnames (Htrain_of _ Hs'))
      as (c' & f' & _ & Hc' & Hf' & ->).
    destruct (search_siblings _ _ _ _ _ (cf_layout _ _ _ _ _ _ Hcv) Htest)
      as (subdirs & d1' & d2' & Hsubs & Hd1 & Hd2 & Hl1 & Hl2 & -> & ->).
    apply not_eq_sym, sibling_file_path_ne; try done.
    + by eapply get_subdirs_valid.
    + by eapply get_subdirs_valid.
    + intros <-. by eapply train_test_names_disjoint.
Qed.

Lemma example_fs_listings_valid : listings_valid example_fs.
Proof. apply fs_of_listings_valid. vm_compute. reflexivity. Defined.

Lemma shuffle_always_split_without_test_witness :
  ∃ cv, example_run = Done cv
        ∧ cv_val_images cv = []
        ∧ valSamples (cv_metadata cv) = 0
        ∧ ∀ s s', s ∈ cv_test_images cv → s' ∈ cv_collected cv → s.1 ≠ s'.1.
Proof.
  destruct example_run as [cv|e] eqn:Hrun; [|vm_compute in Hrun; discriminate].
  destruct (shuffle_always_split_without_test _ _ _ _ _ _ Hrun)
    as (shuffled & _ & _ & _ & Htest).
  destruct (Htest "/t/extracted/Test") as (_ & Hval & Hn & _ & _ & Hdisj).
  { vm_compute in Hrun. injection Hrun as <-. reflexivity. }
  exists cv. split_and!; [reflexivity|exact Hval|exact Hn|].
  exact (Hdisj example_fs_listings_valid).
Defined.

(** C10: in a conversion with a test root, every test sample was collected
    from the test-root folder of a class that is a class folder of the train
    root, and carries that class's label; a folder name that is not a train
    class has no label and is not counted in [numClasses], and no test
    sample is a file of the test-root folder of that name. *)
Theorem test_only_class_ignored (G : generator) (C : codec) (fs : filesystem)
    (tmpdir : string) (req : request) (cv : conversion)
    (test_dir d : string) :
  convert_to_tfrecord G C fs tmpdir req = Done cv →
  lay_test (cv_layout cv) = Some test_dir →
  d ∉ classNames (cv_metadata cv) →
  (∀ s, s ∈ cv_test_images cv →
        sample_of fs test_dir (cv_class_to_idx cv) (classNames (cv_metadata cv)) s)
  ∧ cv_class_to_idx cv !! d = None
  ∧ numClasses (cv_metadata cv) = length (classNames (cv_metadata cv))
  ∧ (listings_valid fs → valid_name d = true →
     ∀ s img_file, s ∈ cv_test_images cv → valid_name img_file = true →
       s.1 ≠ path_join (path_join test_dir d) img_file).
Proof.
  intros Hrun Htest Hd. pose proof (convert_Done _ _ _ _ _ _ Hrun) as Hcv.
  destruct (converted_samples _ _ _ _ _ _ Hcv) as [_ Htest_of].
  split_and!.
  - intros s. by apply Htest_of.
  - rewrite (cf_index _ _ _ _ _ _ Hcv). by apply class_to_idx_of_None.
  - by destruct (cf_counts _ _ _ _ _ _ Hcv) as (? & _).
  - intros Hfs Hvd s g Hs Hg.
    assert (∀ c, c ∈ classNames (cv_metadata cv) → valid_name c = true)
      as Hnames.
    { intros c. apply (class_names_valid _ _ _ _ Hfs (cf_names _ _ _ _ _ _ Hcv)). }
    destruct (sample_of_valid _ _ _ _ _ Hfs Hnames (Htest_of _ _ Htest Hs))
      as (c & f & Hin & Hc & Hf & ->).
    intros Heq. apply class_file_path_inj in Heq as [-> _]; done.
Qed.

Lemma test_only_class_ignored_witness :
  ∃ cv, example_run = Done cv
        ∧ fs_listdir example_fs "/t/extracted/Test/bird" = Some ["b.png"]
        ∧ cv_class_to_idx cv !! "bird" = None
        ∧ numClasses (cv_metadata cv) = 2
        ∧ ∀ s, s ∈ cv_test_images cv → s.1 ≠ "/t/extracted/Test/bird/b.png".
Proof.
  destruct example_run as [cv|e] eqn:Hrun; [|vm_compute in Hrun; discriminate].
  assert (lay_test (cv_layout cv) = Some "/t/extracted/Test"
          ∧ classNames (cv_metadata cv) = ["cat"; "dog"]) as [Htest Hnames].
  { vm_compute in Hrun. injection Hrun as <-. split; reflexivity. }
  destruct (test_only_class_ignored _ _ _ _ _ cv "/t/extracted/Test" "bird"
              Hrun Htest) as (_ & Hidx & Hnum & Hfiles).
  { rewrite Hnames. rewrite !not_elem_of_cons. split_and!; [done..|].
    apply not_elem_of_nil. }
  exists cv. split_and!; [reflexivity|reflexivity|exact Hidx| |].
  - by rewrite Hnum, Hnames.
  - intros s Hs.
    apply (Hfiles example_fs_listings_valid eq_refl s "b.png" Hs eq_refl).
Defined.

(** ** Layout resolver: further properties *)

Lemma string_eqb_app_self (p suf : string) : endswith (p +:+ suf) suf = true.
Proof.
  induction p as [|c p IH].
  - rewrite string_app_nil_l. destruct suf; simpl; [done|].
    by rewrite Ascii.eqb_refl, String.eqb_refl.
  - rewrite string_app_cons. cbn [endswith]. rewrite IH.
    by destruct (String.eqb _ _).
Qed.

Lemma endswith_spec (s suf : string) :
  endswith s suf = true ↔ ∃ p, s = p +:+ suf.
Proof.
  split.
  - induction s as [|c s IH]; cbn [endswith].
    + destruct (String.eqb_spec "" suf) as [<-|]; [|done]. by exists "".
    + destruct (String.eqb_spec (String c s) suf) as [<-|_].
      * by exists "".
      * intros (p & ->)%IH. exists (String c p). by rewrite string_app_cons.
  - intros (p & ->). apply string_eqb_app_self.
Qed.

Lemma check_train_None fs path sl names :
  (∀ name d, name ∈ names → sl !! name = Some d → not_probed fs (path_join path d)) →
  check_train fs path sl names = Done None.
Proof.
  induction names as [|n rest IH]; intros H; [done|].
  rewrite check_train_cons, check_train_not_probed.
  - cbn [rbind]. apply IH. intros name d Hin. apply H. by right.
  - destruct (sl !! n) as [d|] eqn:Hn; [right|by left].
    exists d. split; [done|]. apply (H n); [by left|done].
Qed.

Lemma check_train_no_train_named fs path subdirs :
  (∀ d, d ∈ subdirs → lower d ∈ train_names → not_probed fs (path_join path d)) →
  check_train fs path (subdir_lower subdirs) train_names = Done None.
Proof.
  intros H. apply check_train_None. intros name d Hname Hd.
  apply subdir_lower_Some in Hd as [Hd <-]. by apply H.
Qed.

(** X1: whatever layout the resolver returns, the train root it names has a
    first listed subdirectory with an image among its first 20 entries, and
    it is either the base itself with no test root (flat layout) or a
    subdirectory of the base named [train] or [training]. *)
Theorem resolved_layout_sound (fs : filesystem) (base_path : string)
    (max_depth : nat) (l : layout) :
  find_image_folder fs base_path max_depth = Done (Some l) →
  probed fs (lay_train l)
  ∧ ((lay_train l = lay_base l ∧ lay_test l = None)
     ∨ ∃ subdirs d,
         get_subdirs fs (lay_base l) = Done subdirs
         ∧ d ∈ subdirs ∧ lower d ∈ train_names
         ∧ lay_train l = path_join (lay_base l) d).
Proof.
  unfold find_image_folder. generalize (S max_depth) as levels.
  intros levels. revert base_path.
  induction levels as [|n IH]; intros path; [done|].
  cbn [search].
  destruct (get_subdirs fs path) as [subdirs|e] eqn:Hsubs; cbn [rbind]; [|done].
  destruct (check_train fs path _ _) as [[l'|]|e] eqn:Hcheck; cbn [rbind];
    [| |done].
  - intros [= ->]. clear IH.
    assert (∀ names, check_train fs path (subdir_lower subdirs) names
                     = Done (Some l) → probed fs (lay_train l)) as Hprobed.
    { clear Hcheck. induction names as [|m rest IHn]; [done|].
      cbn [check_train]. destruct (subdir_lower subdirs !! m) as [d|]; [|exact IHn].
      destruct (get_subdirs fs (path_join path d)) as [[|c subs]|e] eqn:Hs;
        cbn [rbind]; [exact IHn| |done].
      destruct (has_images fs _) eqn:Himg; [|exact IHn].
      intros [= <-]. by exists c, subs. }
    split; [by eapply Hprobed|]. right.
    apply check_train_Some in Hcheck as (name & d & Hname & Hd & Htr & Hb & _).
    apply subdir_lower_Some in Hd as [Hd <-].
    exists subdirs, d. by rewrite Hb.
  - destruct (match subdirs with c :: _ :: _ => _ | _ => false end) eqn:Hflat.
    + intros [= <-]. split; [|by left].
      destruct subdirs as [|c [|c' rest]]; [done..|]. by exists c, (c' :: rest).
    + clear Hsubs Hcheck Hflat.
      induction subdirs as [|d ds IHds]; [done|].
      destruct (search fs n (path_join path d)) as [[l'|]|e] eqn:Hrec;
        cbn [rbind]; [|exact IHds|done].
      intros [= ->]. by eapply IH.
Qed.

Lemma resolved_layout_sound_witness :
  probed example_fs "/t/extracted/train".
Proof.
  apply (resolved_layout_sound example_fs "/t/extracted" 4
           {| lay_train := "/t/extracted/train";
              lay_test := Some "/t/extracted/Test";
              lay_base := "/t/extracted" |}).
  vm_compute. reflexivity.
Defined.

(** X2: a directory with more than one subdirectory, whose first listed
    subdirectory has an image among its first 20 entries, is itself resolved
    as the train root, with no test root, provided no subdirectory named
    [train] or [training] passes its own probe. *)
Theorem flat_layout_resolved (fs : filesystem) (path : string)
    (c c' : string) (rest : list string) (max_depth : nat) :
  get_subdirs fs path = Done (c :: c' :: rest) →
  (∀ d, d ∈ c :: c' :: rest → lower d ∈ train_names →
        not_probed fs (path_join path d)) →
  has_images fs (path_join path c) = true →
  find_image_folder fs path max_depth
  = Done (Some {| lay_train := path; lay_test := None; lay_base := path |}).
Proof.
  intros Hsubs Hnone Himg. unfold find_image_folder. cbn [search].
  rewrite Hsubs. cbn [rbind]. fold train_names.
  rewrite (check_train_no_train_named _ _ _ Hnone). cbn [rbind].
  by rewrite Himg.
Qed.

Lemma flat_layout_resolved_witness :
  find_image_folder flat_fs "/f" 4
  = Done (Some {| lay_train := "/f"; lay_test := None; lay_base := "/f" |}).
Proof.
  apply (flat_layout_resolved flat_fs "/f" "cat" "dog" []).
  - vm_compute. reflexivity.
  - intros d Hd Hlow. exfalso.
    rewrite !elem_of_cons, elem_of_nil in Hd.
    destruct Hd as [->|[->|[]]];
      apply (bool_decide_pack _) in Hlow; vm_compute in Hlow; done.
  - vm_compute. reflexivity.
Defined.

(** X3: a directory whose only subdirectory is a wrapper (not a train
    folder that passes its probe) is transparent: resolving it is resolving
    the wrapper with one level of depth less, failures included. *)
Theorem wrapper_folder_skipped (fs : filesystem) (path w : string)
    (max_depth : nat) :
  get_subdirs fs path = Done [w] →
  (lower w ∈ train_names → not_probed fs (path_join path w)) →
  find_image_folder fs path (S max_depth)
  = find_image_folder fs (path_join path w) max_depth.
Proof.
  intros Hsubs Hw. unfold find_image_folder.
  change (search fs (S (S max_depth)) path) with
    (subdirs ←? get_subdirs fs path;
     found ←? check_train fs path (subdir_lower subdirs) train_names;
     match found with
     | Some l => Done (Some l)
     | None =>
         if match subdirs with
            | c :: _ :: _ => has_images fs (path_join path c)
            | _ => false
            end
         then Done (Some {| lay_train := path; lay_test := None; lay_base := path |})
         else
           (fix each (ds : list string) : result (option layout) :=
              match ds with
              | [] => Done None
              | d :: ds' =>
                  r ←? search fs (S max_depth) (path_join path d);
                  match r with
                  | Some l => Done (Some l)
                  | None => each ds'
                  end
              end) subdirs
     end).
  rewrite Hsubs. cbn [rbind].
  rewrite check_train_no_train_named.
  - cbn [rbind]. by destruct (search fs (S max_depth) (path_join path w)) as [[?|]|?].
  - intros d ->%list_elem_of_singleton. exact Hw.
Qed.

Lemma wrapper_folder_skipped_witness :
  find_image_folder wrapped_fs "/w" 4
  = find_image_folder wrapped_fs "/w/myproject-main" 3
  ∧ find_image_folder wrapped_fs "/w" 4
    = Done (Some {| lay_train := "/w/myproject-main/data/train";
                    lay_test := Some "/w/myproject-main/data/test";
                    lay_base := "/w/myproject-main/data" |})
  ∧ find_image_folder wrapped_fs "/w" 1 = Done None.
Proof.
  split; [|by vm_compute].
  apply (wrapper_folder_skipped wrapped_fs "/w" "myproject-main" 3).
  - vm_compute. reflexivity.
  - intros Hlow. apply (bool_decide_pack _) in Hlow. vm_compute in Hlow. done.
Defined.

(** X4: when the extracted tree has no subdirectory to look at (or does not
    exist), the resolver finds nothing at any depth, and the conversion fails
    with the [TypeError] of subscripting [None]. *)
Theorem no_structure_is_fatal (G : generator) (C : codec) (fs : filesystem)
    (tmpdir : string) (req : request) :
  get_subdirs fs (extract_dir_of tmpdir) = Done [] →
  (∀ max_depth, find_image_folder fs (extract_dir_of tmpdir) max_depth = Done None)
  ∧ convert_to_tfrecord G C fs tmpdir req = Raised TypeError.
Proof.
  intros Hsubs.
  assert (∀ max_depth,
            find_image_folder fs (extract_dir_of tmpdir) max_depth = Done None) as H.
  { intros m. unfold find_image_folder. cbn [search]. by rewrite Hsubs. }
  split; [exact H|]. unfold convert_to_tfrecord.
  fold (extract_dir_of tmpdir). by rewrite H.
Qed.

Lemma no_structure_is_fatal_witness :
  convert_to_tfrecord zero_generator plain_codec example_fs "/nowhere"
    example_request = Raised TypeError.
Proof.
  apply (no_structure_is_fatal zero_generator plain_codec example_fs "/nowhere").
  vm_compute. reflexivity.
Defined.

(** X5: [has_images] sees an image exactly when one of the first 20 listed
    entries of the folder has a recognized extension; a folder that cannot
    be listed has none. *)
Theorem has_images_first_20 (fs : filesystem) (folder : string) :
  has_images fs folder = true
  ↔ ∃ files i f, fs_listdir fs folder = Some files ∧ i < 20
                 ∧ files !! i = Some f ∧ is_image_name f = true.
Proof.
  unfold has_images. destruct (fs_listdir fs folder) as [files|].
  - rewrite existsb_exists. split.
    + intros (f & Hin & Himg). apply list_elem_of_In, elem_of_take in Hin
        as (i & Hi & Hlt). by exists files, i, f.
    + intros (files' & i & f & [= <-] & Hlt & Hi & Himg). exists f.
      split; [|done]. apply list_elem_of_In, elem_of_take. by exists i.
  - split; [done|]. by intros (? & ? & ? & ? & _).
Qed.

(** X6: a name is an image name exactly when, lower-cased, it ends in one of
    [.png .jpg .jpeg .webp .gif .bmp]. *)
Theorem is_image_name_extension (f : string) :
  is_image_name f = true
  ↔ ∃ stem ext, ext ∈ image_extensions ∧ lower f = stem +:+ ext.
Proof.
  unfold is_image_name. rewrite existsb_exists. split.
  - intros (ext & Hin & (stem & Hs)%endswith_spec).
    exists stem, ext. by rewrite list_elem_of_In.
  - intros (stem & ext & Hin & Hs). exists ext. rewrite <- list_elem_of_In.
    split; [done|]. apply endswith_spec. by exists stem.
Qed.

(** ** Sample collection: further properties *)

Lemma fs_of_listings_nodup dirs files :
  Forall (λ entry, NoDup entry.2) dirs → listings_nodup (fs_of dirs files).
Proof.
  intros Hdirs p listing Hl. cbn [fs_of fs_listdir] in Hl.
  apply elem_of_list_to_map_2 in Hl. rewrite Forall_forall in Hdirs.
  by apply (Hdirs (p, listing)).
Qed.

Lemma fs_of_listings_exist dirs files : listings_exist (fs_of dirs files).
Proof.
  intros p listing Hl. cbn [fs_of fs_listdir fs_exists] in *.
  apply elem_of_list_to_map_2 in Hl. apply bool_decide_eq_true. left.
  apply list_elem_of_fmap. by exists (p, listing).
Qed.

Lemma collect_images_elem fs class_dir idx listing f :
  fs_listdir fs class_dir = Some listing → f ∈ listing →
  is_image_name f = true →
  ∃ imgs, collect_images fs class_dir idx = Done imgs
          ∧ (path_join class_dir f, idx) ∈ imgs.
Proof.
  intros Hl Hf Himg. unfold collect_images, listdir. rewrite Hl. cbn [rbind].
  eexists. split; [reflexivity|]. apply list_elem_of_fmap. exists f.
  split; [done|]. by apply list_elem_of_filter.
Qed.

Lemma collect_train_acc fs train_dir idx names acc img out :
  collect_train fs train_dir idx names acc img = Done out →
  ∀ s, s ∈ acc → s ∈ out.1.
Proof.
  revert acc img. induction names as [|c rest IH]; intros acc img Hrun s Hs.
  - by injection Hrun as <-.
  - cbn [collect_train] in Hrun.
    apply rbind_Done in Hrun as (i & Hi & Hrun).
    apply rbind_Done in Hrun as (imgs & Himgs & Hrun).
    apply (IH _ _ Hrun). apply elem_of_app. by left.
Qed.

Lemma collect_train_complete fs train_dir idx names acc img out :
  collect_train fs train_dir idx names acc img = Done out →
  ∀ s, sample_of fs train_dir idx names s → s ∈ out.1.
Proof.
  revert acc img. induction names as [|c rest IH]; intros acc img Hrun s Hs.
  - destruct Hs as (c & ? & ? & Hc & _). by apply elem_of_nil in Hc.
  - cbn [collect_train] in Hrun.
    apply rbind_Done in Hrun as (i & Hi & Hrun).
    apply rbind_Done in Hrun as (imgs & Himgs & Hrun).
    destruct Hs as (c' & listing & f & Hc & Hidx & Hl & Hf & Himg & Hpath).
    apply elem_of_cons in Hc as [->|Hc].
    + apply (collect_train_acc _ _ _ _ _ _ _ Hrun). apply elem_of_app. right.
      apply class_label_Done in Hi. rewrite Hidx in Hi. injection Hi as <-.
      destruct (collect_images_elem fs (path_join train_dir c) s.2 listing f
                  Hl Hf Himg) as (imgs' & Himgs' & Hin).
      rewrite Himgs in Himgs'. injection Himgs' as <-.
      destruct s as [p l]. simpl in *. by subst.
    + apply (IH _ _ Hrun). by exists c', listing, f.
Qed.

Lemma collect_test_acc fs test_dir idx names acc out :
  collect_test fs test_dir idx names acc = Done out →
  ∀ s, s ∈ acc → s ∈ out.
Proof.
  revert acc. induction names as [|c rest IH]; intros acc Hrun s Hs.
  - by injection Hrun as <-.
  - cbn [collect_test] in Hrun. destruct (fs_exists fs _); [|by eapply IH].
    apply rbind_Done in Hrun as (i & Hi & Hrun).
    apply rbind_Done in Hrun as (imgs & Himgs & Hrun).
    apply (IH _ Hrun). apply elem_of_app. by left.
Qed.

Lemma collect_test_complete fs test_dir idx names acc out :
  listings_exist fs →
  collect_test fs test_dir idx names acc = Done out →
  ∀ s, sample_of fs test_dir idx names s → s ∈ out.
Proof.
  intros Hex. revert acc. induction names as [|c rest IH]; intros acc Hrun s Hs.
  - destruct Hs as (c & ? & ? & Hc & _). by apply elem_of_nil in Hc.
  - cbn [collect_test] in Hrun.
    destruct Hs as (c' & listing & f & Hc & Hidx & Hl & Hf & Himg & Hpath).
    apply elem_of_cons in Hc as [->|Hc].
    + rewrite (Hex _ _ Hl) in Hrun.
      apply rbind_Done in Hrun as (i & Hi & Hrun).
      apply rbind_Done in Hrun as (imgs & Himgs & Hrun).
      apply (collect_test_acc _ _ _ _ _ _ Hrun). apply elem_of_app. right.
      apply class_label_Done in Hi. rewrite Hidx in Hi. injection Hi as <-.
      destruct (collect_images_elem fs (path_join test_dir c) s.2 listing f
                  Hl Hf Himg) as (imgs' & Himgs' & Hin).
      rewrite Himgs in Himgs'. injection Himgs' as <-.
      destruct s as [p l]. simpl in *. by subst.
    + assert (sample_of fs test_dir idx rest s) as Hs' by (by exists c', listing, f).
      destruct (fs_exists fs _); [|by eapply IH].
      apply rbind_Done in Hrun as (i & Hi & Hrun).
      apply rbind_Done in Hrun as (imgs & Himgs & Hrun).
      by eapply IH.
Qed.

(** X7: in a completed conversion the train pool is exactly the image files
    of the class folders of the train root, each with its class's label, and
    the train and validation lists together hold exactly these samples; with
    a test root, the test samples are exactly the image files of the
    test-root folders named like a train class. *)
Theorem pools_are_the_class_folder_images (G : generator) (C : codec)
    (fs : filesystem) (tmpdir : string) (req : request) (cv : conversion) :
  convert_to_tfrecord G C fs tmpdir req = Done cv →
  let class_names := classNames (cv_metadata cv) in
  let from root := sample_of fs root (cv_class_to_idx cv) class_names in
  (∀ s, s ∈ cv_collected cv ↔ from (lay_train (cv_layout cv)) s)
  ∧ (∀ s, s ∈ cv_train_images cv ++ cv_val_images cv
          ↔ from (lay_train (cv_layout cv)) s)
  ∧ (listings_exist fs →
     ∀ test_dir, lay_test (cv_layout cv) = Some test_dir → test_dir ≠ "" →
       ∀ s, s ∈ cv_test_images cv ↔ from test_dir s).
Proof.
  intros Hrun class_names from.
  pose proof (convert_Done _ _ _ _ _ _ Hrun) as Hcv.
  destruct (converted_samples _ _ _ _ _ _ Hcv) as [Htrain_of Htest_of].
  destruct (cf_collect _ _ _ _ _ _ Hcv) as (img & Hcol).
  assert (∀ s, s ∈ cv_collected cv ↔ from (lay_train (cv_layout cv)) s) as Hiff.
  { intros s. split; [apply Htrain_of|].
    apply (collect_train_complete _ _ _ _ _ _ _ Hcol). }
  split_and!; [exact Hiff| |].
  - intros s. rewrite <- Hiff.
    destruct (cf_split _ _ _ _ _ _ Hcv) as (shuffled & Hsh & Hsplit).
    destruct (seeded_shuffle_Done G (cv_collected cv)) as (x & Hx & Hp).
    rewrite Hsh in Hx. injection Hx as <-.
    pose proof (split_train_val_app (lay_test (cv_layout cv))
                  (req_valSplit req) shuffled) as Happ.
    rewrite Hsplit in Happ. cbn [fst snd] in Happ. by rewrite Happ, Hp.
  - intros Hex test_dir Htest Hne s. split; [by apply Htest_of|].
    pose proof (cf_test _ _ _ _ _ _ Hcv) as Hct. rewrite Htest in Hct.
    cbn [truthy default] in Hct.
    destruct (String.eqb_spec test_dir "") as [|_]; [done|]. cbn [negb] in Hct.
    by apply (collect_test_complete _ _ _ _ _ _ Hex Hct).
Qed.

Lemma pools_are_the_class_folder_images_witness :
  ∃ cv, example_run = Done cv
        ∧ ("/t/extracted/train/dog/d2.JPG", 1) ∈ cv_train_images cv ++ cv_val_images cv
        ∧ ("/t/extracted/Test/cat/tc.png", 0) ∈ cv_test_images cv.
Proof.
  destruct example_run as [cv|e] eqn:Hrun; [|vm_compute in Hrun; discriminate].
  destruct (pools_are_the_class_folder_images _ _ _ _ _ _ Hrun)
    as (_ & Htrain & Htest).
  assert (lay_train (cv_layout cv) = "/t/extracted/train"
          ∧ lay_test (cv_layout cv) = Some "/t/extracted/Test"
          ∧ classNames (cv_metadata cv) = ["cat"; "dog"]
          ∧ cv_class_to_idx cv !! "dog" = Some 1
          ∧ cv_class_to_idx cv !! "cat" = Some 0) as (Hl & Ht & Hn & Hdog & Hcat).
  { vm_compute in Hrun. injection Hrun as <-. split_and!; reflexivity. }
  exists cv. split_and!; [reflexivity| |].
  - apply Htrain. rewrite Hl, Hn. exists "dog", ["d1.png"; "d2.JPG"], "d2.JPG".
    split_and!; [right; by left|exact Hdog|reflexivity|right; by left|
                 reflexivity|reflexivity].
  - apply (Htest (fs_of_listings_exist _ _) _ Ht); [done|]. rewrite Hn.
    exists "cat", ["tc.png"], "tc.png".
    split_and!; [by left|exact Hcat|reflexivity|by left|reflexivity|reflexivity].
Defined.

Lemma path_join_valid_inj (dir f f' : string) :
  valid_name f = true → valid_name f' = true →
  path_join dir f = path_join dir f' → f = f'.
Proof.
  intros Hf Hf'. rewrite !path_join_valid by done.
  apply (inj (String.app (dir_prefix dir))).
Qed.

Lemma collect_images_paths fs root c idx imgs :
  listings_valid fs → listings_nodup fs →
  collect_images fs (path_join root c) idx = Done imgs →
  NoDup imgs.*1
  ∧ ∀ p, p ∈ imgs.*1 →
      ∃ f, valid_name f = true ∧ p = path_join (path_join root c) f.
Proof.
  intros Hv Hn. unfold collect_images, listdir.
  destruct (fs_listdir fs (path_join root c)) as [listing|] eqn:Hl; [|done].
  cbn [rbind]. intros [= <-]. rewrite <- list_fmap_compose. split.
  - apply NoDup_fmap_2_strong; [|apply NoDup_filter; by eapply Hn].
    intros f f' Hf Hf'. apply list_elem_of_filter in Hf as [_ Hf].
    apply list_elem_of_filter in Hf' as [_ Hf']. simpl.
    apply path_join_valid_inj; by eapply listings_valid_elem.
  - intros p (f & -> & Hf)%list_elem_of_fmap.
    apply list_elem_of_filter in Hf as [_ Hf]. exists f.
    split; [by eapply listings_valid_elem|done].
Qed.

Lemma collect_train_NoDup fs train_dir idx names seen acc img out :
  listings_valid fs → listings_nodup fs →
  NoDup (seen ++ names) → (∀ c, c ∈ names → valid_name c = true) →
  NoDup acc.*1 → paths_under train_dir seen acc.*1 →
  collect_train fs train_dir idx names acc img = Done out →
  NoDup out.1.*1.
Proof.
  intros Hv Hn. revert seen acc img.
  induction names as [|c rest IH]; intros seen acc img Hnd Hvalid Hacc Hseen Hrun.
  - by injection Hrun as <-.
  - cbn [collect_train] in Hrun.
    apply rbind_Done in Hrun as (i & Hi & Hrun).
    apply rbind_Done in Hrun as (imgs & Himgs & Hrun).
    destruct (collect_images_paths _ _ _ _ _ Hv Hn Himgs) as [Hnd_imgs Himgs_in].
    assert (valid_name c = true) as Hc by (apply Hvalid; by left).
    eapply (IH (seen ++ [c])); [| | | |exact Hrun].
    + by rewrite <- app_assoc.
    + intros c' Hc'. apply Hvalid. by right.
    + rewrite fmap_app. apply NoDup_app. split_and!; [done| |done].
      intros p Hp Hp'. destruct (Hseen p Hp) as (c' & f' & Hc' & Hvc' & Hvf' & ->).
      destruct (Himgs_in _ Hp') as (f & Hvf & Heq).
      apply class_file_path_inj in Heq as [-> _]; try done.
      apply NoDup_app in Hnd as (_ & Hdisj & _). apply (Hdisj c Hc'). by left.
    + intros p. rewrite fmap_app, elem_of_app. intros [Hp|Hp].
      * destruct (Hseen p Hp) as (c' & f' & Hc' & H). exists c', f'.
        split; [|done]. apply elem_of_app. by left.
      * destruct (Himgs_in _ Hp) as (f & Hvf & ->). exists c, f.
        split_and!; try done. apply elem_of_app. right. by left.
Qed.

Lemma class_names_NoDup fs train_dir names :
  listings_nodup fs → class_names_of fs train_dir = Done names → NoDup names.
Proof.
  intros Hn. unfold class_names_of, listdir.
  destruct (fs_listdir fs train_dir) as [listing|] eqn:Hl; [|done].
  cbn [rbind]. intros [= <-]. unfold sorted.
  rewrite merge_sort_Permutation. apply NoDup_filter. by eapply Hn.
Qed.

(** X8: on a file system whose listings hold proper names, each once, the
    train pool of a completed conversion holds no path twice; so no sample is
    in both the train and the validation list, whatever the validation
    fraction. *)
Theorem train_pool_has_no_duplicate (G : generator) (C : codec)
    (fs : filesystem) (tmpdir : string) (req : request) (cv : conversion) :
  listings_valid fs → listings_nodup fs →
  convert_to_tfrecord G C fs tmpdir req = Done cv →
  NoDup (cv_collected cv).*1
  ∧ NoDup (cv_train_images cv ++ cv_val_images cv).*1
  ∧ ∀ s s', s ∈ cv_train_images cv → s' ∈ cv_val_images cv → s.1 ≠ s'.1.
Proof.
  intros Hv Hn Hrun. pose proof (convert_Done _ _ _ _ _ _ Hrun) as Hcv.
  destruct (cf_collect _ _ _ _ _ _ Hcv) as (img & Hcol).
  assert (NoDup (cv_collected cv).*1) as Hnd.
  { change (NoDup (cv_collected cv, img).1.*1).
    eapply (collect_train_NoDup fs _ _ _ [] [] None _ Hv Hn); [| | | |exact Hcol].
    - apply (class_names_NoDup _ _ _ Hn (cf_names _ _ _ _ _ _ Hcv)).
    - intros c. apply (class_names_valid _ _ _ _ Hv (cf_names _ _ _ _ _ _ Hcv)).
    - constructor.
    - intros p Hp. by apply elem_of_nil in Hp. }
  destruct (cf_split _ _ _ _ _ _ Hcv) as (shuffled & Hsh & Hsplit).
  destruct (seeded_shuffle_Done G (cv_collected cv)) as (x & Hx & Hp).
  rewrite Hsh in Hx. injection Hx as <-.
  pose proof (split_train_val_app (lay_test (cv_layout cv))
                (req_valSplit req) shuffled) as Happ.
  rewrite Hsplit in Happ. cbn [fst snd] in Happ.
  assert (NoDup (cv_train_images cv ++ cv_val_images cv).*1) as Hnd'.
  { by rewrite Happ, Hp. }
  split_and!; [done..|].
  intros s s' Hs Hs' Heq. rewrite fmap_app in Hnd'.
  apply NoDup_app in Hnd' as (_ & Hdisj & _).
  apply (Hdisj s.1).
  - apply list_elem_of_fmap. by exists s.
  - rewrite Heq. apply list_elem_of_fmap. by exists s'.
Qed.

Lemma example_fs_listings_nodup : listings_nodup example_fs.
Proof.
  apply fs_of_listings_nodup. refine (bool_decide_unpack _ _).
  vm_compute. exact I.
Defined.

Lemma train_pool_has_no_duplicate_witness :
  ∃ cv, example_run = Done cv ∧ NoDup (cv_collected cv).*1.
Proof.
  destruct example_run as [cv|e] eqn:Hrun; [|vm_compute in Hrun; discriminate].
  exists cv. split; [reflexivity|].
  apply (train_pool_has_no_duplicate _ _ _ _ _ _ example_fs_listings_valid
           example_fs_listings_nodup Hrun).
Defined.

Lemma class_to_idx_of_Some (l : list string) (c : string) (i : nat) :
  class_to_idx_of l !! c = Some i → l !! i = Some c.
Proof.
  induction l as [|x l IH] using rev_ind.
  - unfold class_to_idx_of. simpl. by rewrite lookup_empty.
  - rewrite class_to_idx_of_snoc, lookup_insert_Some.
    intros [[<- <-]|[_ Hl]].
    + by rewrite lookup_app_r, Nat.sub_diag.
    + apply lookup_app_l_Some. by apply IH.
Qed.

(** X9: in a completed conversion every sample of every split carries a
    label below [numClasses], and [classNames] at that label is the class
    folder the sample was collected from. *)
Theorem label_decodes_to_class_folder (G : generator) (C : codec)
    (fs : filesystem) (tmpdir : string) (req : request) (cv : conversion)
    (s : sample) :
  convert_to_tfrecord G C fs tmpdir req = Done cv →
  s ∈ cv_train_images cv ++ cv_val_images cv ++ cv_test_images cv →
  s.2 < numClasses (cv_metadata cv)
  ∧ ∃ root class_name img_file,
      classNames (cv_metadata cv) !! s.2 = Some class_name
      ∧ (root = lay_train (cv_layout cv) ∨ lay_test (cv_layout cv) = Some root)
      ∧ s.1 = path_join (path_join root class_name) img_file.
Proof.
  intros Hrun Hs. pose proof (convert_Done _ _ _ _ _ _ Hrun) as Hcv.
  destruct (pools_are_the_class_folder_images _ _ _ _ _ _ Hrun) as (_ & Htrain & _).
  destruct (converted_samples _ _ _ _ _ _ Hcv) as [_ Htest_of].
  assert (∃ root, (root = lay_train (cv_layout cv)
                   ∨ lay_test (cv_layout cv) = Some root)
                  ∧ sample_of fs root (cv_class_to_idx cv)
                      (classNames (cv_metadata cv)) s) as (root & Hroot & Hof).
  { rewrite app_assoc in Hs. apply elem_of_app in Hs as [Hs|Hs].
    - exists (lay_train (cv_layout cv)). split; [by left|]. by apply Htrain.
    - pose proof (cf_test _ _ _ _ _ _ Hcv) as Hct.
      destruct (lay_test (cv_layout cv)) as [t|] eqn:Ht.
      + exists t. split; [by right|]. by apply Htest_of.
      + injection Hct as Hnil. rewrite <- Hnil in Hs. by apply elem_of_nil in Hs. }
  destruct Hof as (c & listing & f & _ & Hidx & _ & _ & _ & Hpath).
  rewrite (cf_index _ _ _ _ _ _ Hcv) in Hidx.
  apply class_to_idx_of_Some in Hidx.
  destruct (cf_counts _ _ _ _ _ _ Hcv) as (Hnum & _). split.
  - rewrite Hnum. by eapply lookup_lt_Some.
  - by exists root, c, f.
Qed.

Lemma label_decodes_to_class_folder_witness :
  ∃ cv, example_run = Done cv
        ∧ ∃ class_name, classNames (cv_metadata cv) !! 1 = Some class_name.
Proof.
  destruct example_run as [cv|e] eqn:Hrun; [|vm_compute in Hrun; discriminate].
  exists cv. split; [reflexivity|].
  destruct (label_decodes_to_class_folder _ _ _ _ _ cv
              ("/t/extracted/train/dog/d1.png", 1) Hrun)
    as (_ & _ & c & _ & Hc & _).
  { vm_compute in Hrun. injection Hrun as <-. cbn.
    rewrite !elem_of_cons. tauto. }
  by exists c.
Defined.

(** X10: the counts of the manifest are those of the lists handed to the
    shard writer, [numClasses] is the length of [classNames], and the split
    loses no sample: [trainSamples + valSamples] is the size of the train
    pool. *)
Theorem manifest_counts (G : generator) (C : codec) (fs : filesystem)
    (tmpdir : string) (req : request) (cv : conversion) :
  convert_to_tfrecord G C fs tmpdir req = Done cv →
  let md := cv_metadata cv in
  numClasses md = length (classNames md)
  ∧ trainSamples md = length (cv_train_images cv)
  ∧ valSamples md = length (cv_val_images cv)
  ∧ testSamples md = length (cv_test_images cv)
  ∧ trainSamples md + valSamples md = length (cv_collected cv)
  ∧ shardSizeMB md = req_shardSizeMB req.
Proof.
  intros Hrun md. subst md. pose proof (convert_Done _ _ _ _ _ _ Hrun) as Hcv.
  destruct (cf_counts _ _ _ _ _ _ Hcv) as (Hc & Ht & Hv & Hte).
  split_and!; try done.
  - rewrite Ht, Hv, <- length_app.
    destruct (cf_split _ _ _ _ _ _ Hcv) as (shuffled & Hsh & Hsplit).
    destruct (seeded_shuffle_Done G (cv_collected cv)) as (x & Hx & Hp).
    rewrite Hsh in Hx. injection Hx as <-.
    pose proof (split_train_val_app (lay_test (cv_layout cv))
                  (req_valSplit req) shuffled) as Happ.
    rewrite Hsplit in Happ. cbn [fst snd] in Happ. by rewrite Happ, Hp.
  - unfold convert_to_tfrecord in Hrun.
    repeat (apply rbind_Done in Hrun as (? & _ & Hrun);
            try (destruct x; [|done])).
    by injection Hrun as <-.
Qed.

Lemma manifest_counts_witness :
  ∃ cv, example_run = Done cv
        ∧ trainSamples (cv_metadata cv) + valSamples (cv_metadata cv) = 4.
Proof.
  destruct example_run as [cv|e] eqn:Hrun; [|vm_compute in Hrun; discriminate].
  exists cv. split; [reflexivity|].
  destruct (manifest_counts _ _ _ _ _ _ Hrun) as (_ & _ & _ & _ & -> & _).
  vm_compute in Hrun. by injection Hrun as <-.
Defined.

(** ** Split planner: further properties *)



(** A fraction over 1 makes the split index negative, which Python's slices
    count from the end: with 1.5 and four samples the train list keeps two. *)
Example split_fraction_over_one :
  split_train_val None 1.5 [("a", 0); ("b", 0); ("c", 1); ("d", 1)]
  = ([("a", 0); ("b", 0)], [("c", 1); ("d", 1)]).
Proof. by vm_compute. Qed.

(** [random.shuffle] leaves a list of at most one element as it is, and in
    general returns a list of the same length. *)
Lemma shuffle_short_list (G : generator) (x : list sample) :
  (length x ≤ 1 → seeded_shuffle G x = Done x)
  ∧ ∃ x', seeded_shuffle G x = Done x' ∧ length x' = length x.
Proof.
  split.
  - intros Hlen. unfold seeded_shuffle.
    by replace (length x - 1) with 0 by lia.
  - destruct (seeded_shuffle_Done G x) as (x' & Hx & Hp).
    exists x'. split; [done|]. by apply Permutation_length.
Qed.

(** ** Representative image *)

Lemma collect_train_sample_img fs train_dir idx names acc img out :
  img = fst <$> head acc →
  collect_train fs train_dir idx names acc img = Done out →
  out.2 = fst <$> head out.1.
Proof.
  revert acc img. induction names as [|c rest IH]; intros acc img Himg Hrun.
  - by injection Hrun as <-.
  - cbn [collect_train] in Hrun.
    apply rbind_Done in Hrun as (i & Hi & Hrun).
    apply rbind_Done in Hrun as (imgs & Himgs & Hrun).
    apply (IH _ _) in Hrun; [done|]. subst img.
    destruct acc as [|a acc]; [|done]. simpl. by destruct imgs.
Qed.

(** X12: the original width and height of the manifest are the dimensions
    of the first sample of the train pool as collected, before the shuffle;
    they are [(0, 0)] when that image cannot be decoded or the pool is
    empty. *)
Theorem original_size_of_first_sample (G : generator) (C : codec)
    (fs : filesystem) (tmpdir : string) (req : request) (cv : conversion) :
  convert_to_tfrecord G C fs tmpdir req = Done cv →
  (originalWidth (cv_metadata cv), originalHeight (cv_metadata cv))
  = match head (cv_collected cv) with
    | Some s => default (0, 0)%Z (fs_image_size fs s.1)
    | None => (0, 0)%Z
    end.
Proof.
  unfold convert_to_tfrecord. intros H.
  apply rbind_Done in H as ([folders|] & Hfolders & H); [|done].
  apply rbind_Done in H as (class_names & Hnames & H).
  apply rbind_Done in H as ([collected sample_img] & Hcollect & H).
  apply rbind_Done in H as (shuffled & Hshuffle & H).
  apply rbind_Done in H as (test_images & Htest & H).
  apply rbind_Done in H as (o1 & _ & H).
  apply rbind_Done in H as (o2 & _ & H).
  apply rbind_Done in H as (o3 & _ & H).
  injection H as <-. cbn.
  apply collect_train_sample_img in Hcollect; [|done]. cbn in Hcollect.
  subst sample_img. destruct collected as [|s rest]; cbn.
  - done.
  - unfold get_image_dimensions. by destruct (fs_image_size fs s.1) as [[w h]|].
Qed.

Lemma original_size_of_first_sample_witness :
  ∃ cv, example_run = Done cv
        ∧ (originalWidth (cv_metadata cv), originalHeight (cv_metadata cv))
          = (0, 0)%Z.
Proof.
  destruct example_run as [cv|e] eqn:Hrun; [|vm_compute in Hrun; discriminate].
  exists cv. split; [reflexivity|].
  rewrite (original_size_of_first_sample _ _ _ _ _ _ Hrun).
  by destruct (head (cv_collected cv)).
Defined.

(** ** Shard writer: how the shards fill *)

Lemma reaches_size_reached size thr recs :
  size = records_size recs → size_reached size thr = false → ¬ reaches thr recs.
Proof.
  intros -> H Hr. unfold size_reached in H.
  apply Qle_bool_iff in Hr. unfold reaches in *. congruence.
Qed.

Lemma encoded_single_length C fs img : length (encoded C fs [img]) ≤ 1.
Proof.
  unfold encoded. simpl. destruct (create_example C fs img.1 img.2); simpl; lia.
Qed.

Lemma write_sample_run C fs img st p :
  ws_writer st = Some p →
  ws_shard_idx (write_sample C fs img st) = ws_shard_idx st
  ∧ (∀ recs, ws_disk st !! p = Some recs →
       ws_disk (write_sample C fs img st) !! p
       = Some (recs ++ encoded C fs [img]))
  ∧ ∀ q, q ≠ p → ws_disk (write_sample C fs img st) !! q = ws_disk st !! q.
Proof.
  intros Hp. unfold write_sample, encoded. simpl.
  destruct (create_example C fs img.1 img.2) as [ser|e]; rewrite ?Hp; ws_simpl.
  - split_and!; [done| |].
    + intros recs Hrecs. by rewrite lookup_insert_eq, lookup_total_alt, Hrecs.
    + intros q Hq. by rewrite lookup_insert_ne.
  - split_and!; [done| |done]. intros recs Hrecs. by rewrite app_nil_r.
Qed.

Lemma rollover_run C prefix thr st st1 :
  rollover C prefix thr st = Done st1 →
  (ws_shard_idx st1 = S (ws_shard_idx st)
   ∧ ws_writer st1 = Some (shard_path prefix (ws_shard_idx st))
   ∧ ws_disk st1 = <[shard_path prefix (ws_shard_idx st) := []]> (ws_disk st)
   ∧ (ws_writer st = None ∨ size_reached (ws_current_size st) thr = true))
  ∨ (st1 = st ∧ is_Some (ws_writer st)
     ∧ size_reached (ws_current_size st) thr = false).
Proof.
  unfold rollover.
  destruct (bool_decide (ws_writer st = None)
            || size_reached (ws_current_size st) thr) eqn:Hcond.
  - intros (st' & Hclose & [= <-])%rbind_Done. left. ws_simpl.
    assert (ws_shard_idx st' = ws_shard_idx st ∧ ws_disk st' = ws_disk st)
      as [-> ->].
    { unfold close_writer in Hclose. destruct (ws_writer st); [|by injection Hclose as <-].
      apply rbind_Done in Hclose as (content & _ & [= <-]). done. }
    split_and!; [lia|done..|].
    apply orb_true_iff in Hcond as [Hn%bool_decide_eq_true|Hr]; [by left|by right].
  - intros [= <-]. right. apply orb_false_iff in Hcond as [Hn%bool_decide_eq_false Hr].
    split_and!; [done| |done]. by destruct (ws_writer st).
Qed.

(** One iteration of the loop: either a new shard is opened, because none
    was open or the open one had reached the threshold, and the sample's
    record (if any) starts it; or the record is appended to the open shard,
    which was below the threshold. *)
Lemma write_step_run C fs prefix thr d0 written st img :
  ws_inv C prefix thr d0 written st →
  ∃ st',
    write_step C fs prefix thr st img = Done st'
    ∧ ws_inv C prefix thr d0 (written ++ encoded C fs [img]) st'
    ∧ ((ws_shard_idx st' = S (ws_shard_idx st)
        ∧ (ws_shard_idx st = 0
           ∨ ∃ k recs, ws_shard_idx st = S k
                       ∧ ws_disk st !! shard_path prefix k = Some recs
                       ∧ reaches thr recs)
        ∧ ws_disk st' !! shard_path prefix (ws_shard_idx st)
          = Some (encoded C fs [img])
        ∧ ∀ i, i < ws_shard_idx st →
            ws_disk st' !! shard_path prefix i = ws_disk st !! shard_path prefix i)
       ∨ (∃ k recs,
            ws_shard_idx st = S k ∧ ws_shard_idx st' = S k
            ∧ ws_disk st !! shard_path prefix k = Some recs
            ∧ ¬ reaches thr recs
            ∧ ws_disk st' !! shard_path prefix k = Some (recs ++ encoded C fs [img])
            ∧ ∀ i, i < k →
                ws_disk st' !! shard_path prefix i
                = ws_disk st !! shard_path prefix i)).
Proof.
  intros Hinv.
  destruct (rollover_inv C prefix thr d0 written st Hinv)
    as (st1 & Hroll & Hinv1 & Hopen).
  exists (write_sample C fs img st1). unfold write_step. rewrite Hroll.
  split; [done|]. split; [by apply write_sample_inv|].
  destruct Hinv as [_ _ Hwriter _ _ _].
  destruct (rollover_run _ _ _ _ _ Hroll)
    as [(Hidx1 & Hw1 & Hd1 & Hwhy)|(-> & [p Hw] & Hbelow)].
  - destruct (write_sample_run C fs img st1 _ Hw1) as (Hi & Hd & Hother).
    left. rewrite Hi. split_and!; [done| | |].
    + destruct Hwhy as [Hnone|Hreach].
      * left. by rewrite Hnone in Hwriter.
      * destruct (ws_writer st) as [p|]; [|by left]. right.
        destruct Hwriter as (k & recs & Hidx & -> & Hdisk & Hsize).
        exists k, recs. split_and!; [done..|]. by eapply size_reached_reaches.
    + apply (Hd []). rewrite Hd1. apply lookup_insert_eq.
    + intros i Hlt. rewrite Hother, Hd1, ?lookup_insert_ne; [done|..];
        intros Heq; apply shard_path_inj in Heq; lia.
  - rewrite Hw in Hwriter.
    destruct Hwriter as (k & recs & Hidx & -> & Hdisk & Hsize).
    destruct (write_sample_run C fs img st _ Hw) as (Hi & Hd & Hother).
    right. exists k, recs. split_and!; [done|by rewrite Hi|done| |by apply Hd|].
    + by eapply reaches_size_reached.
    + intros i Hlt. apply Hother. intros Heq. apply shard_path_inj in Heq. lia.
Qed.

Lemma reaches_mono thr a b :
  records_size a ≤ records_size b → reaches thr a → reaches thr b.
Proof.
  unfold reaches. intros Hle Ha. eapply Qle_trans; [exact Ha|].
  rewrite <- Zle_Qle. lia.
Qed.

Lemma records_size_app a b :
  records_size (a ++ b) = records_size a + records_size b.
Proof. unfold records_size. apply sum_list_with_app. Qed.

Lemma reaches_nonpos thr recs : (thr <= 0)%Q → reaches thr recs.
Proof.
  intros Hthr. unfold reaches. eapply Qle_trans; [exact Hthr|].
  change 0%Q with (inject_Z 0). rewrite <- Zle_Qle. lia.
Qed.

Lemma write_loop_fill C fs prefix thr d0 written images st :
  ws_inv C prefix thr d0 written st →
  filled_below thr (ws_disk st) prefix (ws_shard_idx st) →
  ∃ st',
    write_loop C fs prefix thr images st = Done st'
    ∧ ws_inv C prefix thr d0 (written ++ encoded C fs images) st'
    ∧ filled_below thr (ws_disk st') prefix (ws_shard_idx st')
    ∧ ws_shard_idx st ≤ ws_shard_idx st' ≤ ws_shard_idx st + length images
    ∧ (images ≠ [] → 0 < ws_shard_idx st')
    ∧ ((thr <= 0)%Q → ws_shard_idx st' = ws_shard_idx st + length images)
    ∧ (¬ reaches thr (written ++ encoded C fs images) →
       ws_shard_idx st ≤ 1 → ws_shard_idx st' ≤ 1).
Proof.
  revert written st. induction images as [|img rest IH]; intros written st Hinv Hfill.
  - exists st. rewrite app_nil_r. simpl. split_and!; try done; lia.
  - destruct (write_step_run C fs prefix thr d0 written st img Hinv)
      as (st1 & Hstep & Hinv1 & Hcase).
    assert (filled_below thr (ws_disk st1) prefix (ws_shard_idx st1)) as Hfill1.
    { destruct Hcase as [(Hidx & _ & Hnew & Hold)
                        |(k & recs & Hidx & Hidx1 & Hd & Hbelow & Hnew & Hold)].
      - intros i recs j Hi Hr Hj. rewrite Hidx in Hi.
        destruct (decide (i = ws_shard_idx st)) as [->|Hne].
        + assert (recs = encoded C fs [img]) as -> by congruence.
          pose proof (encoded_single_length C fs img). exfalso. lia.
        + rewrite Hold in Hr by lia. apply (Hfill i recs j); [lia|done..].
      - intros i recs' j Hi Hr Hj. rewrite Hidx1 in Hi.
        destruct (decide (i = k)) as [->|Hne].
        + assert (recs' = recs ++ encoded C fs [img]) as -> by congruence.
          pose proof (encoded_single_length C fs img) as Hlen.
          rewrite length_app in Hj.
          destruct (decide (j < length recs)) as [Hlt|Hge].
          * rewrite take_app_le by lia. apply (Hfill k recs j); [lia|done|lia].
          * replace j with (length recs) by lia.
            by rewrite take_app_length.
        + rewrite Hold in Hr by lia. apply (Hfill i recs' j); [lia|done..]. }
    destruct (IH _ _ Hinv1 Hfill1)
      as (st' & Hloop & Hinv' & Hfill' & Hrange & _ & Hnonpos & Hfits).
    exists st'. cbn [write_loop]. rewrite Hstep. cbn [rbind].
    rewrite encoded_cons, app_assoc. cbn [length].
    assert (ws_shard_idx st ≤ ws_shard_idx st1 ≤ S (ws_shard_idx st)
            ∧ 0 < ws_shard_idx st1) as (Hstep_range & Hpos).
    { destruct Hcase as [(Hidx & _)|(k & recs & Hidx & Hidx1 & _)]; lia. }
    split_and!; try done; try lia.
    + intros Hthr. rewrite (Hnonpos Hthr).
      destruct Hcase as [(Hidx & _)|(k & recs & _ & _ & _ & Hbelow & _)]; [lia|].
      destruct Hbelow. by apply reaches_nonpos.
    + intros Hno Hle. apply (Hfits Hno).
      destruct Hcase as [(Hidx & [Hzero|(k & recs & Hk & Hd & Hr)] & _)
                        |(k & recs & Hidx & Hidx1 & _)]; [lia| |lia].
      destruct Hno. pose proof (inv_records _ _ _ _ _ _ Hinv) as Hrecs.
      rewrite Hk, shard_records_S, Hd in Hrecs. simpl in Hrecs.
      apply (reaches_mono thr recs); [|done].
      rewrite <- Hrecs, !records_size_app. lia.
Qed.

Lemma filled_below_init thr d prefix : filled_below thr d prefix 0.
Proof. intros i recs k Hi. lia. Qed.

(** What [write_shards] returns, with how its shards were filled. *)
Lemma write_shards_fill C fs d0 images prefix thr :
  ∃ n sums d,
    write_shards C fs d0 images prefix thr
    = Done (shard_name prefix <$> seq 0 n, sums, d)
    ∧ shards_spec C fs images prefix thr d0 n sums d
    ∧ filled_below thr d prefix n
    ∧ n ≤ length images
    ∧ (images ≠ [] → 0 < n)
    ∧ ((thr <= 0)%Q → n = length images)
    ∧ (¬ reaches thr (encoded C fs images) → n ≤ 1).
Proof.
  destruct (write_shards_spec C fs d0 images prefix thr)
    as (n & sums & d & Hrun & Hspec).
  exists n, sums, d. split; [exact Hrun|]. split; [exact Hspec|].
  destruct (write_loop_fill C fs prefix thr d0 [] images (ws_init d0)
              (ws_inv_init _ _ _ _) (filled_below_init _ _ _))
    as (st & Hloop & Hinv & Hfill & Hrange & Hpos & Hnonpos & Hfits).
  unfold write_shards in Hrun. rewrite Hloop in Hrun. cbn [rbind] in Hrun.
  apply rbind_Done in Hrun as (st' & Hclose & [= Hpaths _ Hd]).
  assert (ws_shard_paths st' = ws_shard_paths st ∧ ws_disk st' = ws_disk st)
    as [Hp' Hd'].
  { unfold close_writer in Hclose.
    destruct (ws_writer st); [|by injection Hclose as <-].
    apply rbind_Done in Hclose as (content & _ & [= <-]). done. }
  rewrite Hp', (inv_paths _ _ _ _ _ _ Hinv) in Hpaths.
  apply (f_equal length) in Hpaths. rewrite !length_fmap, !length_seq in Hpaths.
  rewrite Hd' in Hd. subst d.
  assert (ws_shard_idx st = n) as Hn by done. rewrite Hn in *.
  cbn [ws_init ws_shard_idx] in *.
  split_and!; [done|lia|done| |].
  - intros Hthr. by rewrite (Hnonpos Hthr).
  - intros Hno. apply Hfits; [done|lia].
Qed.

Lemma write_shards_fill_run C fs d0 images prefix thr paths sums d :
  write_shards C fs d0 images prefix thr = Done (paths, sums, d) →
  let n := length paths in
  paths = shard_name prefix <$> seq 0 n
  ∧ shards_spec C fs images prefix thr d0 n sums d
  ∧ filled_below thr d prefix n
  ∧ n ≤ length images
  ∧ (images ≠ [] → 0 < n)
  ∧ ((thr <= 0)%Q → n = length images)
  ∧ (¬ reaches thr (encoded C fs images) → n ≤ 1).
Proof.
  destruct (write_shards_fill C fs d0 images prefix thr)
    as (n & sums' & d' & -> & H).
  intros [= <- <- <-]. cbv zeta. by rewrite length_fmap, length_seq.
Qed.

(** X13: the records of the shards of one call, read in shard order, are
    the records of the samples that could be encoded, in the order of the
    samples: none is dropped, repeated or moved, and only the unreadable
    samples are missing. *)
Theorem shards_hold_the_encoded_samples (C : codec) (fs : filesystem)
    (d : disk) (images : list sample) (output_prefix : string)
    (shard_size_bytes : Q) :
  ∃ shard_paths checksums d',
    write_shards C fs d images output_prefix shard_size_bytes
    = Done (shard_paths, checksums, d')
    ∧ shard_records d' output_prefix (length shard_paths) = encoded C fs images
    ∧ length (shard_records d' output_prefix (length shard_paths))
      + length (filter (λ img, unreadable fs img = true) images)
      = length images.
Proof.
  destruct (write_shards_completes C fs d images output_prefix shard_size_bytes)
    as ([[paths sums] d'] & Hrun).
  exists paths, sums, d'. split; [exact Hrun|].
  destruct (write_shards_fill_run _ _ _ _ _ _ _ _ _ Hrun) as (_ & Hspec & _).
  rewrite (spec_records _ _ _ _ _ _ _ _ _ Hspec). split; [done|].
  apply encoded_length.
Qed.

(** X14: one call opens at most one shard per sample, and no shard exactly
    when there is no sample; shard [i] of the list is named after the base
    name of the prefix, the index in five digits, and [.tfrecord]. *)
Theorem shard_count_and_names (C : codec) (fs : filesystem)
    (d : disk) (images : list sample) (output_prefix : string)
    (shard_size_bytes : Q) :
  ∃ shard_paths checksums d',
    write_shards C fs d images output_prefix shard_size_bytes
    = Done (shard_paths, checksums, d')
    ∧ length shard_paths ≤ length images
    ∧ (shard_paths = [] ↔ images = [])
    ∧ ∀ i name, shard_paths !! i = Some name →
        name = basename output_prefix +:+ "-" +:+ format_05d i +:+ ".tfrecord".
Proof.
  destruct (write_shards_completes C fs d images output_prefix shard_size_bytes)
    as ([[paths sums] d'] & Hrun).
  exists paths, sums, d'. split; [exact Hrun|].
  destruct (write_shards_fill_run _ _ _ _ _ _ _ _ _ Hrun)
    as (Hpaths & _ & _ & Hle & Hpos & _).
  split_and!; [done| |].
  - split.
    + intros ->. destruct images; [done|]. simpl in Hpos.
      by specialize (Hpos ltac:(done)); lia.
    + intros ->. destruct paths; [done|]. simpl in Hle. lia.
  - intros i name Hi. rewrite Hpaths in Hi.
    apply list_lookup_fmap_Some in Hi as (j & -> & Hj).
    apply lookup_seq in Hj as [-> _]. apply basename_shard_path.
Qed.

(** X15: in every shard of one call, the records before any later record
    were below the threshold when that record was added: a shard overshoots
    the threshold by less than its last record. *)
Theorem shard_below_threshold_before_last (C : codec) (fs : filesystem)
    (d : disk) (images : list sample) (output_prefix : string)
    (shard_size_bytes : Q) :
  ∃ shard_paths checksums d',
    write_shards C fs d images output_prefix shard_size_bytes
    = Done (shard_paths, checksums, d')
    ∧ ∀ i before last,
        i < length shard_paths →
        d' !! shard_path output_prefix i = Some (before ++ [last]) →
        before ≠ [] →
        (inject_Z (Z.of_nat (records_size before)) < shard_size_bytes)%Q.
Proof.
  destruct (write_shards_completes C fs d images output_prefix shard_size_bytes)
    as ([[paths sums] d'] & Hrun).
  exists paths, sums, d'. split; [exact Hrun|].
  destruct (write_shards_fill_run _ _ _ _ _ _ _ _ _ Hrun) as (_ & _ & Hfill & _).
  intros i before last Hi Hd Hne. apply Qnot_le_lt.
  specialize (Hfill i _ (length before) Hi Hd).
  rewrite take_app_length in Hfill. apply Hfill.
  rewrite length_app. simpl. destruct before; [done|]. simpl. lia.
Qed.

Lemma shard_below_threshold_before_last_witness :
  ∃ checksums d',
    write_shards plain_codec example_fs ∅ three_images "/t/shards/train" 12
    = Done (["train-00000.tfrecord"; "train-00001.tfrecord"], checksums, d')
    ∧ d' !! "/t/shards/train-00000.tfrecord" = Some ["C1:c1.png"; "C2:c2.bmp"]
    ∧ (inject_Z (Z.of_nat (records_size ["C1:c1.png"])) < 12)%Q.
Proof.
  destruct (shard_below_threshold_before_last plain_codec example_fs ∅
              three_images "/t/shards/train" 12)
    as (paths & sums & d' & Hrun & Hbelow).
  assert (match write_shards plain_codec example_fs ∅ three_images
                  "/t/shards/train" 12 with
          | Done out => (out.1.1, out.2 !! "/t/shards/train-00000.tfrecord")
          | Raised _ => ([], None)
          end
          = (["train-00000.tfrecord"; "train-00001.tfrecord"],
             Some ["C1:c1.png"; "C2:c2.bmp"])) as Hout.
  { vm_compute. reflexivity. }
  rewrite Hrun in Hout. cbn [fst snd] in Hout. injection Hout as -> Hd.
  exists sums, d'. split_and!; [exact Hrun|exact Hd|].
  apply (Hbelow 0 ["C1:c1.png"] "C2:c2.bmp"); [simpl; lia|exact Hd|done].
Defined.

(** X16: with a threshold that is not positive, every sample opens a shard
    of its own, readable or not, and no shard holds more than one record. *)
Theorem nonpositive_threshold_one_shard_per_sample (C : codec)
    (fs : filesystem) (d : disk) (images : list sample)
    (output_prefix : string) (shard_size_bytes : Q) :
  (shard_size_bytes <= 0)%Q →
  ∃ shard_paths checksums d',
    write_shards C fs d images output_prefix shard_size_bytes
    = Done (shard_paths, checksums, d')
    ∧ length shard_paths = length images
    ∧ ∀ i records, i < length shard_paths →
        d' !! shard_path output_prefix i = Some records → length records ≤ 1.
Proof.
  intros Hthr.
  destruct (write_shards_completes C fs d images output_prefix shard_size_bytes)
    as ([[paths sums] d'] & Hrun).
  exists paths, sums, d'. split; [exact Hrun|].
  destruct (write_shards_fill_run _ _ _ _ _ _ _ _ _ Hrun)
    as (_ & _ & Hfill & _ & _ & Hn & _).
  split; [by apply Hn|]. intros i recs Hi Hd.
  destruct (decide (length recs ≤ 1)) as [|Hlong]; [done|].
  destruct (Hfill i recs 1 Hi Hd); [lia|]. by apply reaches_nonpos.
Qed.

Lemma nonpositive_threshold_one_shard_per_sample_witness :
  ∃ shard_paths checksums d',
    write_shards plain_codec example_fs ∅ three_images "/t/shards/train" 0
    = Done (shard_paths, checksums, d')
    ∧ length shard_paths = 3.
Proof.
  destruct (nonpositive_threshold_one_shard_per_sample plain_codec example_fs ∅
              three_images "/t/shards/train" 0 ltac:(discriminate))
    as (paths & sums & d' & Hrun & Hlen & _).
  exists paths, sums, d'. split; [exact Hrun|exact Hlen].
Defined.

(** X17: when the records of all the samples together stay below the
    threshold, a non-empty sample list gives exactly one shard, number 0,
    holding all the records; this is so in particular when no sample can be
    read and the threshold is positive, where the one shard is empty. *)
Theorem below_threshold_single_shard (C : codec) (fs : filesystem)
    (d : disk) (images : list sample) (output_prefix : string)
    (shard_size_bytes : Q) :
  images ≠ [] →
  (inject_Z (Z.of_nat (records_size (encoded C fs images))) < shard_size_bytes)%Q →
  ∃ checksums d',
    write_shards C fs d images output_prefix shard_size_bytes
    = Done ([basename (shard_path output_prefix 0)], checksums, d')
    ∧ d' !! shard_path output_prefix 0 = Some (encoded C fs images).
Proof.
  intros Hne Hfits.
  destruct (write_shards_completes C fs d images output_prefix shard_size_bytes)
    as ([[paths sums] d'] & Hrun).
  destruct (write_shards_fill_run _ _ _ _ _ _ _ _ _ Hrun)
    as (Hpaths & Hspec & _ & _ & Hpos & _ & Hone).
  assert (length paths = 1) as Hlen.
  { specialize (Hpos Hne). apply Qlt_not_le in Hfits. specialize (Hone Hfits). lia. }
  rewrite Hlen in *. simpl in Hpaths. subst paths.
  exists sums, d'. split; [exact Hrun|].
  destruct (spec_shard _ _ _ _ _ _ _ _ _ Hspec 0) as (recs & Hd & _); [lia|].
  pose proof (spec_records _ _ _ _ _ _ _ _ _ Hspec) as Hrecs.
  unfold shard_records in Hrecs. simpl in Hrecs. rewrite Hd in Hrecs.
  simpl in Hrecs. rewrite app_nil_r in Hrecs. by rewrite <- Hrecs.
Qed.

Lemma below_threshold_single_shard_witness :
  ∃ checksums d',
    write_shards plain_codec example_fs ∅ three_images "/t/shards/train" 50
    = Done (["train-00000.tfrecord"], checksums, d')
    ∧ d' !! "/t/shards/train-00000.tfrecord"
      = Some ["C1:c1.png"; "C2:c2.bmp"; "D1:d1.png"].
Proof.
  assert (encoded plain_codec example_fs three_images
          = ["C1:c1.png"; "C2:c2.bmp"; "D1:d1.png"]) as Henc.
  { vm_compute. reflexivity. }
  destruct (below_threshold_single_shard plain_codec example_fs ∅ three_images
              "/t/shards/train" 50) as (sums & d' & Hrun & Hd).
  - done.
  - rewrite Henc. vm_compute. reflexivity.
  - rewrite Henc in Hd. exists sums, d'. split; [exact Hrun|exact Hd].
Defined.

(** ** Shard writer and the files already there *)

Lemma same_writer_open d st st0 p :
  same_writer d st st0 → ws_writer st0 = Some p →
  is_Some (ws_disk st0 !! p) →
  ws_disk st !! p = ws_disk st0 !! p.
Proof.
  intros (_ & _ & _ & _ & _ & Hd) _ [recs Hrecs]. rewrite Hd, Hrecs.
  by apply lookup_union_Some_l.
Qed.

Lemma close_writer_same C prefix thr written d st st0 st0' :
  ws_inv C prefix thr ∅ written st0 → same_writer d st st0 →
  close_writer C st0 = Done st0' →
  ∃ st', close_writer C st = Done st' ∧ same_writer d st' st0'.
Proof.
  intros Hinv Hsame Hclose.
  pose proof Hsame as (Hp & Hs & Hi & Hz & Hw & Hd).
  unfold close_writer in *. rewrite Hw.
  destruct (ws_writer st0) as [p|] eqn:Hw0.
  - pose proof (inv_writer _ _ _ _ _ _ Hinv) as Hopen. rewrite Hw0 in Hopen.
    destruct Hopen as (k & recs & _ & _ & Hrecs & _).
    unfold read_shard in *.
    rewrite (same_writer_open d st st0 p Hsame Hw0) by (by eexists).
    rewrite Hrecs in *. cbn [rbind] in *. injection Hclose as <-.
    eexists. split; [reflexivity|]. unfold same_writer; ws_simpl.
    rewrite ?Hp, ?Hs, ?Hi, ?Hz, ?Hw, ?Hw0. by split_and!.
  - injection Hclose as <-. by exists st.
Qed.

Lemma write_step_same C fs prefix thr written d st st0 st0' img :
  ws_inv C prefix thr ∅ written st0 → same_writer d st st0 →
  write_step C fs prefix thr st0 img = Done st0' →
  ∃ st', write_step C fs prefix thr st img = Done st' ∧ same_writer d st' st0'.
Proof.
  intros Hinv Hsame Hstep. unfold write_step in *.
  apply rbind_Done in Hstep as (st1 & Hroll & [= <-]).
  destruct (rollover_inv C prefix thr ∅ written st0 Hinv)
    as (st1' & Hroll' & Hinv1 & Hopen1).
  rewrite Hroll in Hroll'. injection Hroll' as <-.
  assert (∃ s1, rollover C prefix thr st = Done s1 ∧ same_writer d s1 st1)
    as (s1 & Hr & Hsame1).
  { pose proof Hsame as (Hp & Hs & Hi & Hz & Hw & Hd).
    unfold rollover in *. rewrite Hw, Hz.
    destruct (bool_decide (ws_writer st0 = None)
              || size_reached (ws_current_size st0) thr).
    - apply rbind_Done in Hroll as (c0 & Hclose & [= <-]).
      destruct (close_writer_same _ _ _ _ _ _ _ _ Hinv Hsame Hclose)
        as (c & -> & (Hp' & Hs' & Hi' & Hz' & Hw' & Hd')).
      cbn [rbind]. eexists. split; [reflexivity|].
      unfold same_writer; ws_simpl. rewrite Hp', Hs', Hi', Hd'.
      split_and!; try done. by rewrite insert_union_l.
    - injection Hroll as <-. by exists st. }
  rewrite Hr. cbn [rbind]. eexists. split; [reflexivity|].
  destruct Hopen1 as [p Hp1].
  pose proof (inv_writer _ _ _ _ _ _ Hinv1) as Hopen. rewrite Hp1 in Hopen.
  destruct Hopen as (k & recs & _ & _ & Hrecs & _).
  pose proof (same_writer_open d s1 st1 p Hsame1 Hp1 ltac:(by eexists)) as Hlook.
  destruct Hsame1 as (Hp & Hs & Hi & Hz & Hw & Hd).
  unfold write_sample. rewrite Hw, Hp1.
  destruct (create_example C fs img.1 img.2) as [ser|e].
  - unfold same_writer; ws_simpl. rewrite Hp, Hs, Hi, Hz.
    split_and!; try done.
    rewrite !lookup_total_alt, Hlook, Hd. by rewrite insert_union_l.
  - by unfold same_writer.
Qed.

Lemma write_loop_same C fs prefix thr written d images st st0 st0' :
  ws_inv C prefix thr ∅ written st0 → same_writer d st st0 →
  write_loop C fs prefix thr images st0 = Done st0' →
  ∃ st', write_loop C fs prefix thr images st = Done st'
         ∧ same_writer d st' st0'
         ∧ ws_inv C prefix thr ∅ (written ++ encoded C fs images) st0'.
Proof.
  revert written st st0. induction images as [|img rest IH];
    intros written st st0 Hinv Hsame Hloop.
  - injection Hloop as <-. exists st. by rewrite app_nil_r.
  - cbn [write_loop] in *.
    apply rbind_Done in Hloop as (st1 & Hstep & Hloop).
    destruct (write_step_same _ _ _ _ _ _ _ _ _ _ Hinv Hsame Hstep)
      as (s1 & -> & Hsame1).
    cbn [rbind]. rewrite encoded_cons, app_assoc.
    apply (IH _ _ st1); try done.
    destruct (write_step_run C fs prefix thr ∅ written st0 img Hinv)
      as (st1' & Hstep' & Hinv1 & _).
    rewrite Hstep in Hstep'. by injection Hstep' as <-.
Qed.

(** X18: what one call of the shard writer returns does not depend on the
    files that were there before: it lists the same shards with the same
    checksums as on an empty disk, and the disk it leaves is the shard files
    of that run over the files that were there, each shard path rewritten
    from empty and every other file untouched. *)
Theorem write_shards_ignores_existing_files (C : codec) (fs : filesystem)
    (d : disk) (images : list sample) (output_prefix : string)
    (shard_size_bytes : Q) :
  ∃ shard_paths checksums written,
    write_shards C fs ∅ images output_prefix shard_size_bytes
    = Done (shard_paths, checksums, written)
    ∧ write_shards C fs d images output_prefix shard_size_bytes
      = Done (shard_paths, checksums, written ∪ d)
    ∧ (∀ q, is_Some (written !! q)
            ↔ ∃ i, i < length shard_paths ∧ q = shard_path output_prefix i).
Proof.
  destruct (write_shards_completes C fs ∅ images output_prefix shard_size_bytes)
    as ([[paths sums] d0] & Hrun).
  exists paths, sums, d0. split; [exact Hrun|].
  destruct (write_shards_fill_run _ _ _ _ _ _ _ _ _ Hrun) as (_ & Hspec & _).
  split.
  - unfold write_shards in *.
    apply rbind_Done in Hrun as (st0 & Hloop & Hrun).
    apply rbind_Done in Hrun as (st0' & Hclose & [= <- <- <-]).
    destruct (write_loop_same C fs output_prefix shard_size_bytes [] d images
                (ws_init d) (ws_init ∅) st0 (ws_inv_init _ _ _ _)) as
      (st & -> & Hsame & Hinv); [|done|].
    { unfold same_writer, ws_init; ws_simpl. split_and!; try done.
      by rewrite (left_id_L ∅ (∪)). }
    cbn [rbind].
    destruct (close_writer_same _ _ _ _ _ _ _ _ Hinv Hsame Hclose)
      as (st' & -> & (Hp & Hs & _ & _ & _ & Hd)).
    cbn [rbind]. by rewrite Hp, Hs, Hd.
  - intros q. split.
    + intros Hq.
      destruct (decide (q ∈ shard_path output_prefix <$> seq 0 (length paths)))
        as [Hin|Hno].
      * apply list_elem_of_fmap in Hin as (i & -> & Hi).
        apply elem_of_seq in Hi. exists i. split; [lia|done].
      * rewrite (spec_frame _ _ _ _ _ _ _ _ _ Hspec) in Hq.
        -- rewrite lookup_empty in Hq. by destruct Hq.
        -- intros i Hi ->. apply Hno, list_elem_of_fmap. exists i.
           split; [done|]. apply elem_of_seq. lia.
    + intros (i & Hi & ->).
      destruct (spec_shard _ _ _ _ _ _ _ _ _ Hspec i Hi) as (recs & -> & _).
      by eexists.
Qed.

(** ** Manifest: further properties *)

Lemma shards_spec_keys C fs images prefix thr d0 paths sums d name :
  paths = shard_name prefix <$> seq 0 (length paths) →
  shards_spec C fs images prefix thr d0 (length paths) sums d →
  is_Some (sums !! name) ↔ name ∈ paths.
Proof.
  intros Hpaths Hspec. rewrite (spec_sums _ _ _ _ _ _ _ _ _ Hspec). split.
  - intros (i & Hi & ->). rewrite Hpaths. apply list_elem_of_fmap.
    exists i. split; [done|]. apply elem_of_seq. lia.
  - intros Hin. rewrite Hpaths in Hin.
    apply list_elem_of_fmap in Hin as (i & -> & Hi).
    apply elem_of_seq in Hi. exists i. split; [lia|done].
Qed.

(** X19: the checksum map of the manifest has exactly the shard names of
    the three lists of the manifest as its keys; no name is listed twice,
    within a split or across splits; and each split has shards exactly when
    it has samples, at most one per sample. *)
Theorem manifest_lists_and_checksums_agree (G : generator) (C : codec)
    (fs : filesystem) (tmpdir : string) (req : request) (cv : conversion) :
  convert_to_tfrecord G C fs tmpdir req = Done cv →
  let md := cv_metadata cv in
  (∀ name, is_Some (md_checksums md !! name)
           ↔ name ∈ shardPaths_train md ++ shardPaths_val md ++ shardPaths_test md)
  ∧ NoDup (shardPaths_train md ++ shardPaths_val md ++ shardPaths_test md)
  ∧ (shardPaths_train md = [] ↔ cv_train_images cv = [])
  ∧ (shardPaths_val md = [] ↔ cv_val_images cv = [])
  ∧ (shardPaths_test md = [] ↔ cv_test_images cv = [])
  ∧ length (shardPaths_train md) ≤ trainSamples md
  ∧ length (shardPaths_val md) ≤ valSamples md
  ∧ length (shardPaths_test md) ≤ testSamples md.
Proof.
  intros Hrun md. subst md. pose proof (convert_Done _ _ _ _ _ _ Hrun) as Hcv.
  destruct (cf_shards _ _ _ _ _ _ Hcv)
    as (sums1 & d1 & sums2 & d2 & sums3 & H1 & H2 & H3 & Hsums).
  destruct (cf_counts _ _ _ _ _ _ Hcv) as (_ & -> & -> & ->).
  pose proof (write_shards_fill_run _ _ _ _ _ _ _ _ _ H1)
    as (Hp1 & S1 & _ & Hle1 & Hpos1 & _).
  pose proof (write_shards_fill_run _ _ _ _ _ _ _ _ _ H2)
    as (Hp2 & S2 & _ & Hle2 & Hpos2 & _).
  pose proof (write_shards_fill_run _ _ _ _ _ _ _ _ _ H3)
    as (Hp3 & S3 & _ & Hle3 & Hpos3 & _).
  assert (∀ (paths : list string) (images : list sample),
            length paths ≤ length images → (images ≠ [] → 0 < length paths) →
            paths = [] ↔ images = []) as Hempty.
  { intros paths images Hle Hpos. split; intros ->.
    - destruct images; [done|]. specialize (Hpos ltac:(done)). simpl in Hpos. lia.
    - destruct paths; [done|]. simpl in Hle. lia. }
  split_and!; [| |by apply Hempty..|done|done|done].
  - intros name. rewrite Hsums, !elem_of_app.
    rewrite <- (shards_spec_keys _ _ _ _ _ _ _ _ _ name Hp1 S1).
    rewrite <- (shards_spec_keys _ _ _ _ _ _ _ _ _ name Hp2 S2).
    rewrite <- (shards_spec_keys _ _ _ _ _ _ _ _ _ name Hp3 S3).
    rewrite !lookup_union_is_Some, lookup_empty.
    pose proof (@is_Some_None string). tauto.
  - pose proof (split_names_distinct (path_join tmpdir "shards")) as Hne.
    unfold split_prefix in *.
    assert (∀ prefix (paths : list string),
              paths = shard_name prefix <$> seq 0 (length paths) → NoDup paths)
      as Hnd.
    { intros prefix paths ->. apply NoDup_fmap_2_strong; [|apply NoDup_seq].
      intros i j _ _ Heq. by apply shard_name_inj in Heq. }
    rewrite !NoDup_app. split_and!; [by eapply Hnd| |by eapply Hnd| |by eapply Hnd].
    + intros name Ht Hvt. rewrite Hp1 in Ht.
      apply list_elem_of_fmap in Ht as (i & -> & _).
      apply elem_of_app in Hvt as [Hv|Hte].
      * rewrite Hp2 in Hv. apply list_elem_of_fmap in Hv as (j & Heq & _).
        by apply (proj1 (Hne i j)).
      * rewrite Hp3 in Hte. apply list_elem_of_fmap in Hte as (j & Heq & _).
        by apply (proj1 (proj2 (Hne i j))).
    + intros name Hv Hte. rewrite Hp2 in Hv.
      apply list_elem_of_fmap in Hv as (i & -> & _).
      rewrite Hp3 in Hte. apply list_elem_of_fmap in Hte as (j & Heq & _).
      by apply (proj2 (proj2 (Hne i j))).
Qed.

Lemma manifest_lists_and_checksums_agree_witness :
  ∃ cv, example_run = Done cv
        ∧ NoDup (shardPaths_train (cv_metadata cv)
                 ++ shardPaths_val (cv_metadata cv)
                 ++ shardPaths_test (cv_metadata cv))
        ∧ shardPaths_val (cv_metadata cv) = [].
Proof.
  destruct example_run as [cv|e] eqn:Hrun; [|vm_compute in Hrun; discriminate].
  destruct (manifest_lists_and_checksums_agree _ _ _ _ _ _ Hrun)
    as (_ & Hnd & _ & Hval & _).
  exists cv. split_and!; [reflexivity|exact Hnd|]. apply Hval.
  assert (match example_run with
          | Done c => cv_val_images c
          | Raised _ => []
          end = []) as Hv by (vm_compute; reflexivity).
  by rewrite Hrun in Hv.
Defined.

(** ** Records and the test folder: further properties *)

(** X20: on a file system whose listings hold proper names, a sample of a
    completed conversion whose file can be read is encoded as the record of
    the file's exact content, the sample's label and the file's name in its
    class folder. *)
Theorem record_of_a_readable_sample (G : generator) (C : codec)
    (fs : filesystem) (tmpdir : string) (req : request) (cv : conversion)
    (s : sample) (content : string) :
  listings_valid fs →
  convert_to_tfrecord G C fs tmpdir req = Done cv →
  s ∈ cv_train_images cv ++ cv_val_images cv ++ cv_test_images cv →
  fs_read fs s.1 = Some content →
  ∃ root class_name img_file,
    s.1 = path_join (path_join root class_name) img_file
    ∧ classNames (cv_metadata cv) !! s.2 = Some class_name
    ∧ create_example C fs s.1 s.2
      = Done (serialize_example C content s.2 img_file).
Proof.
  intros Hv Hrun Hs Hread. pose proof (convert_Done _ _ _ _ _ _ Hrun) as Hcv.
  destruct (pools_are_the_class_folder_images _ _ _ _ _ _ Hrun) as (_ & Htrain & _).
  destruct (converted_samples _ _ _ _ _ _ Hcv) as [_ Htest_of].
  assert (∃ root, sample_of fs root (cv_class_to_idx cv)
                    (classNames (cv_metadata cv)) s) as (root & Hof).
  { rewrite app_assoc in Hs. apply elem_of_app in Hs as [Hs|Hs].
    - exists (lay_train (cv_layout cv)). by apply Htrain.
    - pose proof (cf_test _ _ _ _ _ _ Hcv) as Hct.
      destruct (lay_test (cv_layout cv)) as [t|] eqn:Ht.
      + exists t. by apply Htest_of.
      + injection Hct as Hnil. rewrite <- Hnil in Hs. by apply elem_of_nil in Hs. }
  destruct Hof as (c & listing & f & _ & Hidx & Hl & Hf & _ & Hpath).
  rewrite (cf_index _ _ _ _ _ _ Hcv) in Hidx.
  apply class_to_idx_of_Some in Hidx.
  exists root, c, f. split_and!; [done..|].
  unfold create_example. rewrite Hread, Hpath. f_equal. f_equal.
  apply basename_path_join.
  by destruct (proj1 (valid_name_spec f) (listings_valid_elem _ _ _ _ Hv Hl Hf)).
Qed.

Lemma record_of_a_readable_sample_witness :
  ∃ cv img_file,
    example_run = Done cv
    ∧ create_example plain_codec example_fs "/t/extracted/train/dog/d1.png" 1
      = Done (serialize_example plain_codec "D1" 1 img_file).
Proof.
  destruct example_run as [cv|e] eqn:Hrun; [|vm_compute in Hrun; discriminate].
  destruct (record_of_a_readable_sample zero_generator plain_codec example_fs
              "/t" example_request cv ("/t/extracted/train/dog/d1.png", 1) "D1"
              example_fs_listings_valid Hrun)
    as (root & c & f & _ & _ & Hrec).
  - assert (match example_run with
            | Done c => bool_decide (("/t/extracted/train/dog/d1.png", 1)
                          ∈ cv_train_images c ++ cv_val_images c ++ cv_test_images c)
            | Raised _ => false
            end = true) as Hin by (vm_compute; reflexivity).
    rewrite Hrun in Hin. by apply bool_decide_eq_true in Hin.
  - vm_compute. reflexivity.
  - exists cv, f. split; [reflexivity|exact Hrec].
Defined.

Lemma class_to_idx_of_is_Some (l : list string) (c : string) :
  c ∈ l → is_Some (class_to_idx_of l !! c).
Proof.
  induction l as [|x l IH] using rev_ind; [by intros ?%elem_of_nil|].
  rewrite class_to_idx_of_snoc, lookup_insert_is_Some.
  intros Hin. apply elem_of_app in Hin as [Hl|Hx].
  - destruct (decide (x = c)); [by left|right]. split; [done|by apply IH].
  - apply list_elem_of_singleton in Hx. by left.
Qed.

Lemma collect_test_raises fs test_dir idx names acc c :
  (∀ c', c' ∈ names → is_Some (idx !! c')) →
  c ∈ names → fs_exists fs (path_join test_dir c) = true →
  fs_listdir fs (path_join test_dir c) = None →
  collect_test fs test_dir idx names acc = Raised OSError.
Proof.
  intros Hidx Hc Hex Hl. revert acc Hidx Hc.
  induction names as [|c0 rest IH]; intros acc Hidx Hc; [by apply elem_of_nil in Hc|].
  cbn [collect_test].
  assert (c = c0 ∨ c ≠ c0 ∧ c ∈ rest) as [->|[Hne Hin]].
  { apply elem_of_cons in Hc as [->|Hc]; [by left|].
    destruct (decide (c = c0)); [by left|by right]. }
  - rewrite Hex. destruct (Hidx c0) as [i Hi]; [by left|].
    unfold class_label. rewrite Hi. cbn [rbind].
    unfold collect_images, listdir. by rewrite Hl.
  - assert (∀ acc', collect_test fs test_dir idx rest acc' = Raised OSError) as IH'.
    { intros acc'. apply IH; [|done]. intros c' Hc'. apply Hidx. by right. }
    destruct (fs_exists fs (path_join test_dir c0)); [|apply IH'].
    destruct (Hidx c0) as [i Hi]; [by left|].
    unfold class_label. rewrite Hi. cbn [rbind].
    destruct (collect_images fs (path_join test_dir c0) i) as [imgs|e] eqn:Himgs;
      cbn [rbind]; [apply IH'|].
    unfold collect_images, listdir in Himgs.
    destruct (fs_listdir fs (path_join test_dir c0)); [done|].
    by injection Himgs as <-.
Qed.

(** X21: a train class whose name exists under the test root but cannot be
    listed there (a regular file of that name, say) aborts the conversion
    with [OSError]: only a missing test class folder is skipped. *)
Theorem unlistable_test_class_is_fatal (G : generator) (C : codec)
    (fs : filesystem) (tmpdir : string) (req : request)
    (l : layout) (test_dir : string) (class_names : list string)
    (collected : list sample * option string) (class_name : string) :
  find_image_folder fs (extract_dir_of tmpdir) 4 = Done (Some l) →
  lay_test l = Some test_dir → test_dir ≠ "" →
  class_names_of fs (lay_train l) = Done class_names →
  collect_train fs (lay_train l) (class_to_idx_of class_names) class_names [] None
  = Done collected →
  class_name ∈ class_names →
  fs_exists fs (path_join test_dir class_name) = true →
  fs_listdir fs (path_join test_dir class_name) = None →
  convert_to_tfrecord G C fs tmpdir req = Raised OSError.
Proof.
  intros Hfind Htest Hne Hnames Hcol Hc Hex Hl.
  unfold convert_to_tfrecord. fold (extract_dir_of tmpdir).
  rewrite Hfind. cbn [rbind]. rewrite Hnames. cbn [rbind].
  rewrite Hcol. cbn [rbind].
  destruct (seeded_shuffle_Done G collected.1) as (shuffled & -> & _).
  cbn [rbind]. rewrite Htest. cbn [truthy default].
  destruct (String.eqb_spec test_dir "") as [|_]; [done|]. cbn [negb].
  rewrite (collect_test_raises fs test_dir _ class_names [] class_name); try done.
  intros c'. apply class_to_idx_of_is_Some.
Qed.

Lemma unlistable_test_class_is_fatal_witness :
  convert_to_tfrecord zero_generator plain_codec file_class_fs "/t"
    example_request = Raised OSError.
Proof.
  apply (unlistable_test_class_is_fatal zero_generator plain_codec file_class_fs
           "/t" example_request
           {| lay_train := "/t/extracted/train";
              lay_test := Some "/t/extracted/test";
              lay_base := "/t/extracted" |}
           "/t/extracted/test" ["cat"]
           ([("/t/extracted/train/cat/c.png", 0)],
            Some "/t/extracted/train/cat/c.png") "cat").
  - vm_compute. reflexivity.
  - reflexivity.
  - done.
  - vm_compute. reflexivity.
  - vm_compute. reflexivity.
  - by left.
  - vm_compute. reflexivity.
  - vm_compute. reflexivity.
Defined.

(** ** Test root: which sibling is taken *)

Lemma find_test_dir_priority path subdirs names t :
  find_test_dir path (subdir_lower subdirs) names = Some t →
  ∃ i e, names !! i = Some (lower e) ∧ e ∈ subdirs ∧ t = path_join path e
         ∧ ∀ j e', j < i → e' ∈ subdirs → names !! j ≠ Some (lower e').
Proof.
  induction names as [|n rest IH]; [done|]. cbn [find_test_dir].
  destruct (subdir_lower subdirs !! n) as [e|] eqn:Hn.
  - intros [= <-]. apply subdir_lower_Some in Hn as [He <-].
    exists 0, e. split_and!; [done..|]. intros j e' Hj. lia.
  - intros H. destruct (IH H) as (i & e & Hi & He & -> & Hbefore).
    exists (S i), e. split_and!; [done..|].
    intros [|j] e' Hj He'; simpl.
    + intros [= ->]. by apply (proj1 (subdir_lower_None _ _) Hn e').
    + apply Hbefore; [lia|done].
Qed.

Lemma search_test_root fs levels path l test_dir :
  search fs levels path = Done (Some l) → lay_test l = Some test_dir →
  ∃ subdirs,
    get_subdirs fs (lay_base l) = Done subdirs
    ∧ find_test_dir (lay_base l) (subdir_lower subdirs) test_names = Some test_dir.
Proof.
  revert path. induction levels as [|n IH]; intros path; [done|].
  cbn [search].
  destruct (get_subdirs fs path) as [subdirs|e] eqn:Hsubs; cbn [rbind]; [|done].
  destruct (check_train fs path _ _) as [[l'|]|e] eqn:Hcheck; cbn [rbind];
    [| |done].
  - intros [= ->] Htest.
    apply check_train_Some in Hcheck as (name & d & _ & _ & _ & Hb & Hte).
    exists subdirs. rewrite Hb. split; [done|]. by rewrite <- Hte.
  - destruct (match subdirs with c :: _ :: _ => _ | _ => false end).
    { intros [= <-]. done. }
    clear Hsubs Hcheck. induction subdirs as [|d ds IHds]; [done|].
    destruct (search fs n (path_join path d)) as [[l'|]|e] eqn:Hrec;
      cbn [rbind]; [|exact IHds|done].
    intros [= ->]. by eapply IH.
Qed.

(** X22: the test root of a resolved layout is a subdirectory of the base
    named, case-insensitively, [test], [val] or [validation], and the first
    of these three names that some subdirectory bears wins: a [val] folder
    is the test root only when there is no [test] folder, a [validation]
    folder only when there is neither. *)
Theorem test_root_by_name_priority (fs : filesystem) (base_path : string)
    (max_depth : nat) (l : layout) (test_dir : string) :
  find_image_folder fs base_path max_depth = Done (Some l) →
  lay_test l = Some test_dir →
  ∃ subdirs i e,
    get_subdirs fs (lay_base l) = Done subdirs
    ∧ test_names !! i = Some (lower e)
    ∧ e ∈ subdirs
    ∧ test_dir = path_join (lay_base l) e
    ∧ ∀ j e', j < i → e' ∈ subdirs → test_names !! j ≠ Some (lower e').
Proof.
  intros Hfind Htest.
  destruct (search_test_root _ _ _ _ _ Hfind Htest) as (subdirs & Hsubs & Hfd).
  destruct (find_test_dir_priority _ _ _ _ Hfd) as (i & e & H).
  by exists subdirs, i, e.
Qed.

Lemma test_root_by_name_priority_witness :
  find_image_folder test_and_val_fs "/p" 4
  = Done (Some {| lay_train := "/p/train"; lay_test := Some "/p/Test";
                  lay_base := "/p" |})
  ∧ ∃ subdirs i e,
      get_subdirs test_and_val_fs "/p" = Done subdirs
      ∧ test_names !! i = Some (lower e) ∧ "/p/Test" = path_join "/p" e.
Proof.
  assert (find_image_folder test_and_val_fs "/p" 4
          = Done (Some {| lay_train := "/p/train"; lay_test := Some "/p/Test";
                          lay_base := "/p" |})) as Hfind.
  { vm_compute. reflexivity. }
  split; [exact Hfind|].
  destruct (test_root_by_name_priority _ _ _ _ "/p/Test" Hfind eq_refl)
    as (subdirs & i & e & Hsubs & Hi & _ & Heq & _).
  by exists subdirs, i, e.
Defined.

(** ** Shard numbering *)

Lemma string_of_uint_length (d : Decimal.uint) :
  String.length (NilEmpty.string_of_uint d) = Decimal.nb_digits d.
Proof. induction d; simpl; congruence. Qed.

Lemma nb_digits_iter_D0 (k : nat) (d : Decimal.uint) :
  Decimal.nb_digits (Nat.iter k Decimal.D0 d) = k + Decimal.nb_digits d.
Proof. induction k as [|k IH]; simpl; congruence. Qed.

(** X23: the shard number in a shard name is written with at least five
    digits and reads back as the number: [f"{n:05d}"] decodes to [n], so
    shards of one prefix with different numbers have different paths and
    different names. *)
Theorem shard_number_round_trip (n : nat) :
  (∃ d, NilEmpty.uint_of_string (format_05d n) = Some d ∧ Nat.of_uint d = n)
  ∧ 5 ≤ String.length (format_05d n)
  ∧ ∀ output_prefix m,
      n ≠ m →
      shard_path output_prefix n ≠ shard_path output_prefix m
      ∧ basename (shard_path output_prefix n) ≠ basename (shard_path output_prefix m).
Proof.
  split_and!.
  - exists (pad_uint 5 (Nat.to_uint n)). unfold format_05d.
    by rewrite NilEmpty.usu, of_uint_pad, Unsigned.of_to.
  - unfold format_05d, pad_uint.
    rewrite string_of_uint_length, nb_digits_iter_D0. lia.
  - intros prefix m Hne. split; intros Heq; apply Hne.
    + by apply shard_path_inj in Heq.
    + by apply shard_name_inj in Heq.
Qed.

(** ** Where the shards are uploaded *)

Lemma rsplit_head_noslash (s : string) : has_slash s = false → rsplit_head s = s.
Proof.
  destruct s as [|c r]; [done|]. simpl. intros [Hc Hr]%orb_false_elim.
  by rewrite Hr, Hc.
Qed.

Lemma rsplit_head_app (dir name : string) :
  has_slash name = false → rsplit_head (dir +:+ "/" +:+ name) = dir.
Proof.
  intros Hname. induction dir as [|c r IH].
  - rewrite string_app_nil_l, string_app_cons, string_app_nil_l. simpl.
    by rewrite Hname.
  - rewrite string_app_cons. cbn [rsplit_head].
    rewrite has_slash_app. replace (has_slash ("/" +:+ name)) with true by done.
    by rewrite orb_true_r, IH.
Qed.

(** X24: the shards of a dataset at [dir/name.zip] are uploaded under
    [dir/shards/], each under its own file name; a dataset path without any
    slash has no directory to strip, and its shards go under
    [<dataset path>/shards/]. *)
Theorem shards_uploaded_beside_the_archive (zip_gcs_path filename : string) :
  has_slash filename = false →
  basename (gcs_path_of zip_gcs_path filename) = filename
  ∧ (∀ dir name, has_slash name = false →
       zip_gcs_path = dir +:+ "/" +:+ name →
       gcs_path_of zip_gcs_path filename = dir +:+ "/shards/" +:+ filename)
  ∧ (has_slash zip_gcs_path = false →
     gcs_path_of zip_gcs_path filename
     = zip_gcs_path +:+ "/shards/" +:+ filename).
Proof.
  intros Hf. unfold gcs_path_of, shards_gcs_prefix_of. split_and!.
  - by apply basename_slash_app.
  - intros dir name Hname ->. rewrite (rsplit_head_app dir name Hname).
    by rewrite !string_app_assoc.
  - intros Hz. rewrite (rsplit_head_noslash _ Hz). by rewrite !string_app_assoc.
Qed.

Lemma shards_uploaded_beside_the_archive_witness :
  gcs_path_of "projects/p1/datasets/h/images.zip" "train-00000.tfrecord"
  = "projects/p1/datasets/h/shards/train-00000.tfrecord"
  ∧ gcs_path_of "images.zip" "metadata.json" = "images.zip/shards/metadata.json".
Proof.
  destruct (shards_uploaded_beside_the_archive
              "projects/p1/datasets/h/images.zip" "train-00000.tfrecord" eq_refl)
    as (_ & Hdir & _).
  split; [|by vm_compute].
  by rewrite (Hdir "projects/p1/datasets/h" "images.zip" eq_refl eq_refl).
Defined.
